(** * Rotating bounding boxes: a shallow embedding of [rotatingBoundingBox.py]

    The development follows the Python source function by function.
    Python numbers ([int] and binary64 [float]) are idealised as exact
    integers [Z] and rationals [Q]: rounding, overflow, infinities and NaN
    are outside the model.  Exceptions are values of an error monad. *)

From Stdlib Require Import ZArith QArith Qabs List Bool Lia String DecimalString.
Import ListNotations.

Set Implicit Arguments.

(** ** Python: exceptions, numbers, slices *)

Module Py.

(** The exceptions the program can meet. [CvError f] is [cv2.error] raised
    by the OpenCV function [f]. *)
Inductive exn : Type :=
| ZeroDivisionError
| ValueError
| CvError (func : string).

Inductive result (A : Type) : Type :=
| Ok (a : A)
| Raise (e : exn).

Arguments Ok {A} a.
Arguments Raise {A} e.

Definition bind {A B : Type} (m : result A) (k : A -> result B) : result B :=
  match m with
  | Ok a => k a
  | Raise e => Raise e
  end.

(** [a / b] on numbers: true division, [ZeroDivisionError] on a zero divisor. *)
Definition truediv (a b : Q) : result Q :=
  if Qeq_bool b 0 then Raise ZeroDivisionError else Ok (a / b).

(** [a > b] on numbers. *)
Definition gt (a b : Q) : bool := negb (Qle_bool a b).

(** [int(x)] on a float: the fractional part is dropped (towards zero). *)
Definition int (x : Q) : Z := Z.quot (Qnum x) (Z.pos (Qden x)).

(** One bound of a slice [s[a:b]] over a sequence of length [len]: a
    negative index counts from the end, and the bound is clipped to
    [0 .. len]. *)
Definition slice_bound (len : nat) (k : Z) : nat :=
  if (k <? 0)%Z then Z.to_nat (Z.max 0 (k + Z.of_nat len))
  else Nat.min (Z.to_nat k) len.

(** [max(l, key=key)]: the first element whose key no later element
    exceeds; [ValueError] on an empty sequence. *)
Fixpoint max_from {A : Type} (key : A -> Q) (best : A) (l : list A) : A :=
  match l with
  | [] => best
  | x :: l' => max_from key (if gt (key x) (key best) then x else best) l'
  end.

Definition max {A : Type} (key : A -> Q) (l : list A) : result A :=
  match l with
  | [] => Raise ValueError
  | x :: l' => Ok (max_from key x l')
  end.

(** [not l] on a sequence. *)
Definition is_empty {A : Type} (l : list A) : bool :=
  match l with [] => true | _ :: _ => false end.

End Py.

Import Py.

Declare Scope py_scope.
Delimit Scope py_scope with py.
Notation "x <- m ;; k" := (bind m (fun x => k))
  (at level 61, m at next level, right associativity) : py_scope.
Open Scope py_scope.
Open Scope Q_scope.

(** ** OpenCV: images and the operations the program calls *)

Module Cv.

(** An image ([numpy.ndarray] / [cv::Mat]): its shape and its pixels, read
    at (row, column). Only pixels inside the shape are meaningful. *)
Record Mat (A : Type) : Type := mkMat {
  rows : nat;
  cols : nat;
  px : nat -> nat -> A
}.

Arguments mkMat {A} rows cols px.

(** A colour pixel, three 8-bit channels. *)
Definition pixel3 : Type := (Z * Z * Z)%type.

Definition point : Type := (Z * Z)%type.
Definition contour : Type := list point.

(** [((center_x, center_y), (width, height), angle)] *)
Record RotatedRect : Type := mkRotatedRect {
  center : Q * Q;
  size : Q * Q;
  angle : Q
}.

Definition empty {A : Type} (m : Mat A) : bool :=
  (rows m =? 0)%nat || (cols m =? 0)%nat.

Definition same_size {A B : Type} (a : Mat A) (b : Mat B) : bool :=
  (rows a =? rows b)%nat && (cols a =? cols b)%nat.

Definition map_px {A B : Type} (f : A -> B) (m : Mat A) : Mat B :=
  mkMat (rows m) (cols m) (fun i j => f (px m i j)).

(** An image of the shape of [m] with pixel [(i, j)] given by [f]. *)
Definition like {A B : Type} (m : Mat A) (f : nat -> nat -> B) : Mat B :=
  mkMat (rows m) (cols m) f.

(** [image[y1:y2, x1:x2]] *)
Definition crop {A : Type} (image : Mat A) (y1 y2 x1 x2 : Z) : Mat A :=
  let r0 := slice_bound (rows image) y1 in
  let c0 := slice_bound (cols image) x1 in
  mkMat (slice_bound (rows image) y2 - r0)
        (slice_bound (cols image) x2 - c0)
        (fun i j => px image (r0 + i) (c0 + j)).

(** [np.ones((h, w), np.uint8)] *)
Definition ones (h w : nat) : Mat Z := mkMat h w (fun _ _ => 1%Z).

(** The parts of OpenCV's image processing the model leaves open: the
    per-pixel colour conversions, the value each filter gives a pixel, the
    threshold Otsu's method picks, the contour tracer and the area of a
    contour. *)
Class Imgproc : Type := {
  bgr2lab : pixel3 -> pixel3;
  lab2bgr : pixel3 -> pixel3;
  bgr2gray : pixel3 -> Z;
  (** [clahe clipLimit tileGridSize src i j]: pixel [(i, j)] of the equalised image *)
  clahe : Q -> nat * nat -> Mat Z -> nat -> nat -> Z;
  (** [gaussian ksize sigma src i j]: pixel [(i, j)] of the blurred image *)
  gaussian : nat * nat -> Q -> Mat Z -> nat -> nat -> Z;
  otsu : Mat Z -> Z;
  (** [gaussian_mean blockSize src i j]: the weighted mean around [(i, j)] *)
  gaussian_mean : nat -> Mat Z -> nat -> nat -> Z;
  (** [findContours] with [RETR_EXTERNAL] and [CHAIN_APPROX_SIMPLE] *)
  external_contours : Mat Z -> list contour;
  contourArea : contour -> Q
}.

(** The geometric operations of the shape fitter. *)
Class Fitting : Type := {
  arcLength : contour -> bool -> Q;
  approxPolyDP : contour -> Q -> bool -> contour;
  convexHull : contour -> contour;
  minAreaRect : contour -> RotatedRect;
  boxPoints : RotatedRect -> list (Q * Q)
}.

Inductive ColorConversion : Type := COLOR_BGR2LAB | COLOR_LAB2BGR.

Inductive MorphType : Type := MORPH_CLOSE | MORPH_OPEN.

Section Operations.
Context {ip : Imgproc}.

(** [cv2.cvtColor(src, code)] between three-channel spaces. OpenCV asserts
    [!_src.empty()] and raises [cv2.error] otherwise. *)
Definition cvtColor (src : Mat pixel3) (code : ColorConversion)
  : result (Mat pixel3) :=
  if empty src then Raise (CvError "cvtColor")
  else Ok (map_px match code with
                  | COLOR_BGR2LAB => bgr2lab
                  | COLOR_LAB2BGR => lab2bgr
                  end src).

(** [cv2.cvtColor(src, cv2.COLOR_BGR2GRAY)] *)
Definition cvtColor_BGR2GRAY (src : Mat pixel3) : result (Mat Z) :=
  if empty src then Raise (CvError "cvtColor")
  else Ok (map_px bgr2gray src).

(** [cv2.split(m)] *)
Definition split (m : Mat pixel3) : Mat Z * Mat Z * Mat Z :=
  (map_px (fun p => fst (fst p)) m,
   map_px (fun p => snd (fst p)) m,
   map_px (fun p => snd p) m).

(** [cv2.merge([c0, c1, c2])]: the channels must agree in size. *)
Definition merge (c0 c1 c2 : Mat Z) : result (Mat pixel3) :=
  if same_size c0 c1 && same_size c0 c2
  then Ok (like c0 (fun i j => (px c0 i j, px c1 i j, px c2 i j)))
  else Raise (CvError "merge").

(** [cv2.createCLAHE(clipLimit, tileGridSize).apply(src)] *)
Definition CLAHE_apply (clipLimit : Q) (tileGridSize : nat * nat)
           (src : Mat Z) : Mat Z :=
  like src (clahe clipLimit tileGridSize src).

(** [cv2.GaussianBlur(src, ksize, sigmaX)] *)
Definition GaussianBlur (src : Mat Z) (ksize : nat * nat) (sigmaX : Q)
  : Mat Z :=
  like src (gaussian ksize sigmaX src).

(** [cv2.threshold(src, thresh, maxval, THRESH_BINARY + THRESH_OTSU)]:
    the given [thresh] is ignored, Otsu's value is used and returned. *)
Definition threshold_BINARY_OTSU (src : Mat Z) (thresh maxval : Z)
  : Z * Mat Z :=
  let t := otsu src in
  (t, map_px (fun v => if (t <? v)%Z then maxval else 0%Z) src).

(** [cv2.adaptiveThreshold(src, maxValue, ADAPTIVE_THRESH_GAUSSIAN_C,
    THRESH_BINARY, blockSize, C)] *)
Definition adaptiveThreshold_GAUSSIAN_BINARY
           (src : Mat Z) (maxValue : Z) (blockSize : nat) (C : Z) : Mat Z :=
  like src (fun i j =>
              if (gaussian_mean blockSize src i j - C <? px src i j)%Z
              then maxValue else 0%Z).

(** [cv2.bitwise_or(a, b)] on 8-bit images: sizes must agree. *)
Definition bitwise_or (a b : Mat Z) : result (Mat Z) :=
  if same_size a b
  then Ok (like a (fun i j => Z.lor (px a i j) (px b i j)))
  else Raise (CvError "bitwise_or").

(** The pixels of [src] under the non-zero entries of [kernel] when its
    centre is put on [(i, j)]; entries falling outside [src] are left out. *)
Definition neighbourhood (src kernel : Mat Z) (i j : nat) : list Z :=
  let ay := (rows kernel / 2)%nat in
  let ax := (cols kernel / 2)%nat in
  flat_map
    (fun k : nat * nat =>
       let (ky, kx) := k in
       if negb (px kernel ky kx =? 0)%Z
          && (ay <=? i + ky)%nat && (i + ky - ay <? rows src)%nat
          && (ax <=? j + kx)%nat && (j + kx - ax <? cols src)%nat
       then [px src (i + ky - ay) (j + kx - ax)]
       else [])
    (list_prod (seq 0 (rows kernel)) (seq 0 (cols kernel))).

(** [cv2.dilate] and [cv2.erode] on 8-bit images with the default border:
    outside the image a pixel counts as 0 for the maximum and as 255 for
    the minimum. *)
Definition dilate (src kernel : Mat Z) : Mat Z :=
  like src (fun i j => fold_right Z.max 0%Z (neighbourhood src kernel i j)).

Definition erode (src kernel : Mat Z) : Mat Z :=
  like src (fun i j => fold_right Z.min 255%Z (neighbourhood src kernel i j)).

(** [cv2.morphologyEx(src, op, kernel)] *)
Definition morphologyEx (src : Mat Z) (op : MorphType) (kernel : Mat Z)
  : Mat Z :=
  match op with
  | MORPH_CLOSE => erode (dilate src kernel) kernel
  | MORPH_OPEN => dilate (erode src kernel) kernel
  end.

(** [cv2.findContours(binary, RETR_EXTERNAL, CHAIN_APPROX_SIMPLE)[0]] *)
Definition findContours (binary : Mat Z) : list contour :=
  external_contours binary.

End Operations.

(** [np.int0(box)]: each coordinate cast to an integer, towards zero. *)
Definition int0 (box : list (Q * Q)) : list point :=
  map (fun p => (int (fst p), int (snd p))) box.

(** [box[:, 0] += v] and [box[:, 1] += v] on an array of integer points. *)
Definition add_to_column0 (v : Z) (box : list point) : list point :=
  map (fun p : point => (fst p + v, snd p)%Z) box.

Definition add_to_column1 (v : Z) (box : list point) : list point :=
  map (fun p : point => (fst p, snd p + v)%Z) box.

End Cv.

Import Cv.

(** ** The refinement pipeline *)

Section Pipeline.
Context {ip : Imgproc} {fit : Fitting}.

(** [enhance_image(roi)] *)
Definition enhance_image (roi : Mat pixel3) : result (Mat pixel3) :=
  lab <- cvtColor roi COLOR_BGR2LAB ;;
  let '(l, a, b) := split lab in
  let cl := CLAHE_apply 3 (8, 8)%nat l in
  enhanced <- merge cl a b ;;
  cvtColor enhanced COLOR_LAB2BGR.

(** [get_binary_mask(roi)] *)
Definition get_binary_mask (roi : Mat pixel3) : result (Mat Z) :=
  enhanced <- enhance_image roi ;;
  gray <- cvtColor_BGR2GRAY enhanced ;;
  let blurred := GaussianBlur gray (5, 5)%nat 0 in
  let (_, thresh1) := threshold_BINARY_OTSU blurred 0 255 in
  let thresh2 := adaptiveThreshold_GAUSSIAN_BINARY blurred 255 11 2 in
  binary <- bitwise_or thresh1 thresh2 ;;
  let kernel := ones 3 3 in
  let binary := morphologyEx binary MORPH_CLOSE kernel in
  let binary := morphologyEx binary MORPH_OPEN kernel in
  Ok binary.

(** [get_accurate_rotated_bbox(image, bbox, min_area_ratio=0.1)]; the pair
    [(None, None)] is the "no result" outcome. The [for] loop that appends
    to [valid_contours] is a left fold. *)
Definition get_accurate_rotated_bbox
           (image : Mat pixel3) (bbox : Q * Q * Q * Q) (min_area_ratio : Q)
  : result (option RotatedRect * option (list point)) :=
  let '(x1, y1, x2, y2) := bbox in
  let '(x1, y1, x2, y2) := (int x1, int y1, int x2, int y2) in
  let roi := crop image y1 y2 x1 x2 in
  let roi_height := rows roi in
  let roi_width := cols roi in
  let roi_area := (roi_height * roi_width)%nat in
  binary <- get_binary_mask roi ;;
  let contours := findContours binary in
  if is_empty contours then Ok (None, None) else
  let valid_contours :=
    fold_left
      (fun valid_contours contour =>
         let area := contourArea contour in
         if gt area (inject_Z (Z.of_nat roi_area) * min_area_ratio)
         then valid_contours ++ [contour]
         else valid_contours)
      contours [] in
  if is_empty valid_contours then Ok (None, None) else
  c <- Py.max contourArea valid_contours ;;
  let epsilon := (2 # 100) * arcLength c true in
  let approx := approxPolyDP c epsilon true in
  let hull := convexHull approx in
  let rotated_rect := minAreaRect hull in
  let box := boxPoints rotated_rect in
  let box := int0 box in
  let box := add_to_column0 x1 box in
  let box := add_to_column1 y1 box in
  let (center_x, center_y) := center rotated_rect in
  let adjusted_rect :=
    mkRotatedRect (center_x + inject_Z x1, center_y + inject_Z y1)
                  (size rotated_rect) (angle rotated_rect) in
  Ok (Some adjusted_rect, Some box).

(** *** The stages of the two functions, by name

    The properties speak of the intermediate values of [get_binary_mask]
    and [get_accurate_rotated_bbox]. Each definition below is a stretch of
    one of the two functions; the lemmas [get_binary_mask_stages_eq] and
    [get_accurate_rotated_bbox_stages_eq] put them back together. *)

(** [get_binary_mask], up to [thresh2]: the Otsu mask [thresh1] and the
    adaptive mask [thresh2]. *)
Definition threshold_masks (roi : Mat pixel3) : result (Mat Z * Mat Z) :=
  enhanced <- enhance_image roi ;;
  gray <- cvtColor_BGR2GRAY enhanced ;;
  let blurred := GaussianBlur gray (5, 5)%nat 0 in
  let thresh1 := snd (threshold_BINARY_OTSU blurred 0 255) in
  let thresh2 := adaptiveThreshold_GAUSSIAN_BINARY blurred 255 11 2 in
  Ok (thresh1, thresh2).

(** [get_binary_mask], after [bitwise_or]: closing, then opening, with a
    3x3 kernel of ones. *)
Definition cleanup (binary : Mat Z) : Mat Z :=
  let kernel := ones 3 3 in
  let binary := morphologyEx binary MORPH_CLOSE kernel in
  let binary := morphologyEx binary MORPH_OPEN kernel in
  binary.

(** The sub-image [roi = image[y1:y2, x1:x2]] of a detection box. *)
Definition roi_of (image : Mat pixel3) (bbox : Q * Q * Q * Q) : Mat pixel3 :=
  let '(x1, y1, x2, y2) := bbox in
  crop image (int y1) (int y2) (int x1) (int x2).

(** The offset [(x1, y1)] of that sub-image in the frame. *)
Definition offset_of (bbox : Q * Q * Q * Q) : Z * Z :=
  let '(x1, y1, _, _) := bbox in (int x1, int y1).

(** The contour selector: the loop that builds [valid_contours]. *)
Definition valid_contours (roi_area : nat) (min_area_ratio : Q)
           (contours : list contour) : list contour :=
  fold_left
    (fun valid_contours contour =>
       let area := contourArea contour in
       if gt area (inject_Z (Z.of_nat roi_area) * min_area_ratio)
       then valid_contours ++ [contour]
       else valid_contours)
    contours [].

(** The shape fitter: from the chosen contour [c] to [rotated_rect] and the
    integer [box], both in the coordinates of the sub-image. *)
Definition fit_shape (c : contour) : RotatedRect * list point :=
  let epsilon := (2 # 100) * arcLength c true in
  let approx := approxPolyDP c epsilon true in
  let hull := convexHull approx in
  let rotated_rect := minAreaRect hull in
  let box := boxPoints rotated_rect in
  let box := int0 box in
  (rotated_rect, box).

(** The coordinate mapper: [box[:,0] += x1], [box[:,1] += y1] and the
    construction of [adjusted_rect]. *)
Definition to_frame (x1 y1 : Z) (rotated : RotatedRect * list point)
  : RotatedRect * list point :=
  let (rotated_rect, box) := rotated in
  let box := add_to_column0 x1 box in
  let box := add_to_column1 y1 box in
  let (center_x, center_y) := center rotated_rect in
  let adjusted_rect :=
    mkRotatedRect (center_x + inject_Z x1, center_y + inject_Z y1)
                  (size rotated_rect) (angle rotated_rect) in
  (adjusted_rect, box).

End Pipeline.

Definition default_min_area_ratio : Q := 1 # 10.

(** ** The metric converter *)

(** [pixel_to_cm(width_pixels, height_pixels, depth_cm=70, focal_length_pixels=1000)] *)
Definition pixel_to_cm (width_pixels height_pixels depth_cm focal_length_pixels : Q)
  : result (Q * Q) :=
  width_cm <- truediv (width_pixels * depth_cm) focal_length_pixels ;;
  height_cm <- truediv (height_pixels * depth_cm) focal_length_pixels ;;
  Ok (width_cm, height_cm).

Definition default_depth_cm : Q := 70.
Definition default_focal_length_pixels : Q := 1000.

(** ** A small executable instance

    The interfaces [Imgproc] and [Fitting] are instantiated by a simple
    axis-aligned geometry so that the pipeline can be run on concrete frames.
    The instance stands for OpenCV in the examples only: every property
    below is stated for all instances. *)

Module Sample.

Definition foreground_rows (m : Mat Z) : list nat :=
  filter (fun i => existsb (fun j => negb (px m i j =? 0)%Z) (seq 0 (cols m)))
         (seq 0 (rows m)).

Definition foreground_cols (m : Mat Z) : list nat :=
  filter (fun j => existsb (fun i => negb (px m i j =? 0)%Z) (seq 0 (rows m)))
         (seq 0 (cols m)).

(** The corners of the bounding box of the foreground, as one contour. *)
Definition bounding_contour (m : Mat Z) : list contour :=
  match foreground_rows m, foreground_cols m with
  | i0 :: rest_i, j0 :: rest_j =>
      let y0 := Z.of_nat i0 in
      let y1 := Z.of_nat (last rest_i i0) in
      let x0 := Z.of_nat j0 in
      let x1 := Z.of_nat (last rest_j j0) in
      [[(x0, y0); (x0, y1); (x1, y1); (x1, y0)]]
  | _, _ => []
  end.

Definition cross (p q : point) : Z := (fst p * snd q - snd p * fst q)%Z.

Fixpoint shoelace (first prev : point) (l : list point) : Z :=
  match l with
  | [] => cross prev first
  | p :: l' => (cross prev p + shoelace first p l')%Z
  end.

Definition polygon_area (c : contour) : Q :=
  match c with
  | [] => 0
  | p :: l => Z.abs (shoelace p p l) # 2
  end.

Definition manhattan (p q : point) : Z :=
  (Z.abs (fst p - fst q) + Z.abs (snd p - snd q))%Z.

Fixpoint path_length (first prev : point) (l : list point) : Z :=
  match l with
  | [] => manhattan prev first
  | p :: l' => (manhattan prev p + path_length first p l')%Z
  end.

(** The least and the greatest of a list of numbers (0 for the empty list). *)
Definition least (qs : list Q) : Q :=
  fold_right (fun q m => if Qle_bool q m then q else m) (hd 0 qs) qs.

Definition greatest (qs : list Q) : Q :=
  fold_right (fun q m => if Qle_bool m q then q else m) (hd 0 qs) qs.

(** The coordinate of a point along the direction [u]. *)
Definition along (u : Q * Q) (p : point) : Q :=
  fst u * inject_Z (fst p) + snd u * inject_Z (snd p).

(** The rectangle around a contour whose width runs along the unit vector
    [(cs, sn)]; [deg] is the angle recorded in the rectangle. *)
Definition bounding_rect (cs sn deg : Q) (c : contour) : RotatedRect :=
  let us := map (along (cs, sn)) c in
  let vs := map (along (- sn, cs)) c in
  let cu := (least us + greatest us) / 2 in
  let cv := (least vs + greatest vs) / 2 in
  mkRotatedRect (Qred (cu * cs - cv * sn), Qred (cu * sn + cv * cs))
                (Qred (greatest us - least us), Qred (greatest vs - least vs))
                deg.

(** The corners of a rectangle of that direction, in the order of
    [cv2.boxPoints]. *)
Definition corners (cs sn : Q) (r : RotatedRect) : list (Q * Q) :=
  let (cx, cy) := center r in
  let (w, h) := size r in
  let b := cs / 2 in
  let a := sn / 2 in
  let p0 := (cx - a * h - b * w, cy + b * h - a * w) in
  let p1 := (cx + a * h - b * w, cy - b * h - a * w) in
  map (fun p : Q * Q => (Qred (fst p), Qred (snd p)))
      [p0; p1;
       (2 * cx - fst p0, 2 * cy - snd p0);
       (2 * cx - fst p1, 2 * cy - snd p1)].

Definition imgproc : Imgproc := {|
  bgr2lab := fun p => p;
  lab2bgr := fun p => p;
  bgr2gray := fun p => ((fst (fst p) + snd (fst p) + snd p) / 3)%Z;
  clahe := fun _ _ src i j => px src i j;
  gaussian := fun _ _ src i j => px src i j;
  otsu := fun _ => 127%Z;
  gaussian_mean := fun _ _ _ _ => 129%Z;
  external_contours := bounding_contour;
  contourArea := polygon_area
|}.

(** Rectangles of one fixed direction [(cs, sn)]. *)
Definition fitting_along (cs sn deg : Q) : Fitting := {|
  arcLength := fun c _ =>
    match c with [] => 0 | p :: l => inject_Z (path_length p p l) end;
  approxPolyDP := fun c _ _ => c;
  convexHull := fun c => c;
  minAreaRect := bounding_rect cs sn deg;
  boxPoints := corners cs sn
|}.

(** Axis-aligned rectangles. *)
Definition fitting : Fitting := fitting_along 1 0 0.

(** Rectangles tilted by the angle of the 3-4-5 triangle (about 36.87
    degrees), whose cosine and sine are rational. *)
Definition tilted : Fitting := fitting_along (4 # 5) (3 # 5) (3687 # 100).

(** A frame of one colour. *)
Definition plain (h w : nat) (p : pixel3) : Mat pixel3 :=
  mkMat h w (fun _ _ => p).

Definition black : pixel3 := (0, 0, 0)%Z.
Definition white : pixel3 := (255, 255, 255)%Z.

(** A 10x10 black frame with a white block on rows 3..6 and columns 4..7. *)
Definition block_frame : Mat pixel3 :=
  mkMat 10 10 (fun i j =>
                 if (3 <=? i)%nat && (i <=? 6)%nat && (4 <=? j)%nat && (j <=? 7)%nat
                 then white else black).

(** The same block as a mask. *)
Definition block_mask : Mat Z := map_px (fun p : pixel3 => snd p) block_frame.

End Sample.

(** ** Frames: rescaling, drawing and the per-frame loop *)

Module Host.

(** The parts of OpenCV's resizing and drawing the model leaves open: the
    value each operation gives a pixel of its output. Every drawing
    operation writes into the image it is given and keeps its shape. *)
Class Canvas : Type := {
  (** [resize_area src height width i j]: pixel [(i, j)] of [src] resized
      to [height] x [width] with [INTER_AREA] *)
  resize_area : Mat pixel3 -> nat -> nat -> nat -> nat -> pixel3;
  (** [polylines_px img pts isClosed color thickness i j] *)
  polylines_px :
    Mat pixel3 -> list (list point) -> bool -> pixel3 -> Z -> nat -> nat -> pixel3;
  (** [circle_px img center radius color thickness i j] *)
  circle_px : Mat pixel3 -> point -> Z -> pixel3 -> Z -> nat -> nat -> pixel3;
  (** [putText_px img text org fontScale color thickness i j], with
      [FONT_HERSHEY_SIMPLEX] *)
  putText_px :
    Mat pixel3 -> string -> point -> Q -> pixel3 -> Z -> nat -> nat -> pixel3
}.

(** How Python prints values, and [os.path.join]. *)
Class Formatting : Type := {
  (** [f"{n}"] on an [int] *)
  str_int : Z -> string;
  (** [f"{x:.1f}"] on a [float] *)
  fixed1 : Q -> string;
  (** [f"{center}"] on a pair of floats *)
  str_pair : Q * Q -> string;
  path_join : string -> string -> string
}.

(** What the program does to the outside world. *)
Inductive event : Type :=
| Print (line : string)
| Imwrite (path : string) (img : Mat pixel3).

(** The exceptions of [process_frame]: those of the calls it makes, and the
    two a Python function can meet on its own variables. *)
Inductive error : Type :=
| Propagated (e : exn)
| UnboundLocalError (name : string)
| TypeError.

(** [a >= b] on numbers. *)
Definition ge (a b : Q) : bool := Qle_bool b a.

Section Operations.
Context {cv : Canvas}.

(** [cv2.resize(src, (width, height), interpolation=cv2.INTER_AREA)]:
    OpenCV asserts that [src] is not empty and that both sides of the
    requested size are positive. *)
Definition resize (src : Mat pixel3) (dsize : Z * Z) : result (Mat pixel3) :=
  let (width, height) := dsize in
  if empty src || (width <=? 0)%Z || (height <=? 0)%Z
  then Raise (CvError "resize")
  else Ok (mkMat (Z.to_nat height) (Z.to_nat width)
                 (resize_area src (Z.to_nat height) (Z.to_nat width))).

(** [cv2.polylines(img, pts, isClosed, color, thickness)] *)
Definition polylines (img : Mat pixel3) (pts : list (list point))
           (isClosed : bool) (color : pixel3) (thickness : Z) : Mat pixel3 :=
  like img (polylines_px img pts isClosed color thickness).

(** [cv2.circle(img, center, radius, color, thickness)] *)
Definition circle (img : Mat pixel3) (center : point) (radius : Z)
           (color : pixel3) (thickness : Z) : Mat pixel3 :=
  like img (circle_px img center radius color thickness).

(** [cv2.putText(img, text, org, cv2.FONT_HERSHEY_SIMPLEX, fontScale, color,
    thickness)] *)
Definition putText (img : Mat pixel3) (text : string) (org : point)
           (fontScale : Q) (color : pixel3) (thickness : Z) : Mat pixel3 :=
  like img (putText_px img text org fontScale color thickness).

End Operations.

(** [np.mean(box, axis=0)] on an array of integer points (a non-empty one:
    NumPy gives [nan] on an empty array, which the model does not have). *)
Definition mean_axis0 (box : list point) : Q * Q :=
  let n := inject_Z (Z.of_nat (List.length box)) in
  (inject_Z (fold_right Z.add 0%Z (map fst box)) / n,
   inject_Z (fold_right Z.add 0%Z (map snd box)) / n).

(** [a.astype(int)] on a pair of floats. *)
Definition astype_int (p : Q * Q) : point := (int (fst p), int (snd p)).

End Host.

Import Host.

(** One element of [results[0].boxes]: [box.cls.item()], [box.conf.item()]
    and [box.xyxy[0]]. *)
Record detection : Type := mkDetection {
  det_cls : Q;
  det_conf : Q;
  det_xyxy : Q * Q * Q * Q
}.

(** The variables of [process_frame] that live across the loop:
    [processed_frame], [save_frame] and [conf], which is unbound until the
    loop body has run once. *)
Record frame_state : Type := mkFrameState {
  processed_frame : Mat pixel3;
  save_frame : bool;
  conf : option Q
}.

Section Frames.
Context {ip : Imgproc} {fit : Fitting} {cv : Canvas} {fmt : Formatting}.

(** [rescaleFrame(frame, scale=0.75)] *)
Definition rescaleFrame (frame : Mat pixel3) (scale : Q) : result (Mat pixel3) :=
  let width := int (inject_Z (Z.of_nat (cols frame)) * scale) in
  let height := int (inject_Z (Z.of_nat (rows frame)) * scale) in
  resize frame (width, height).

(** [draw_rotated_bbox(image, rotated_box, color=(0, 255, 0), thickness=2)] *)
Definition draw_rotated_bbox (image : Mat pixel3) (rotated_box : list point)
           (color : pixel3) (thickness : Z) : Mat pixel3 :=
  let image := polylines image [rotated_box] true color thickness in
  let center := astype_int (mean_axis0 rotated_box) in
  let image := circle image center 3 (0, 0, 255)%Z (-1) in
  image.

(** The body of the [for box in detections] loop of [process_frame], run
    on one [box]: the events it emits and the state it leaves, or the
    exception that ends the loop. *)
Definition process_detection
           (frame : Mat pixel3) (conf_threshold focal_length_pixels : Q)
           (st : frame_state) (box : detection)
  : list event * (frame_state + error) :=
  let cls := int (det_cls box) in
  let conf := det_conf box in
  if ge conf conf_threshold then
    let save_frame := true in
    let xyxy := det_xyxy box in
    match get_accurate_rotated_bbox frame xyxy default_min_area_ratio with
    | Raise e => ([], inr (Propagated e))
    | Ok (rotated_rect, rotated_box) =>
        match rotated_box with
        | None =>
            ([], inl (mkFrameState (processed_frame st) save_frame (Some conf)))
        | Some rotated_box =>
            let processed_frame :=
              draw_rotated_bbox (processed_frame st) rotated_box (0, 255, 0)%Z 2 in
            match rotated_rect with
            | None => ([], inr TypeError)
            | Some rotated_rect =>
                let center := Cv.center rotated_rect in
                let (width_pixels, height_pixels) := size rotated_rect in
                let angle := angle rotated_rect in
                match pixel_to_cm width_pixels height_pixels 100
                                  focal_length_pixels with
                | Raise e => ([], inr (Propagated e))
                | Ok (width_cm, height_cm) =>
                    let text :=
                      ("Class: " ++ str_int cls ++ ", Conf: "
                       ++ fixed1 (conf * 100) ++ "%")%string in
                    let dimensions_text :=
                      ("W: " ++ fixed1 width_cm ++ "cm, H: "
                       ++ fixed1 height_cm ++ "cm")%string in
                    let processed_frame :=
                      putText processed_frame text
                              (int (fst center), int (snd center))
                              (1 # 2) (255, 255, 255)%Z 2 in
                    let processed_frame :=
                      putText processed_frame dimensions_text
                              (int (fst center), (int (snd center) + 20)%Z)
                              (1 # 2) (255, 255, 255)%Z 2 in
                    ([Print ("Object " ++ str_int cls ++ ": Center: "
                             ++ str_pair center ++ ", Width: "
                             ++ fixed1 width_cm ++ "cm, Height: "
                             ++ fixed1 height_cm ++ "cm, Angle: "
                             ++ fixed1 angle ++ ", Conf: "
                             ++ fixed1 (conf * 100) ++ "%")%string],
                     inl (mkFrameState processed_frame save_frame (Some conf)))
                end
            end
        end
    end
  else ([], inl (mkFrameState (processed_frame st) (save_frame st) (Some conf))).

(** The [for] loop: the bodies in order, stopped by the first exception. *)
Fixpoint process_detections
         (frame : Mat pixel3) (conf_threshold focal_length_pixels : Q)
         (detections : list detection) (st : frame_state)
  : list event * (frame_state + error) :=
  match detections with
  | [] => ([], inl st)
  | box :: rest =>
      match process_detection frame conf_threshold focal_length_pixels st box with
      | (events, inl st') =>
          let (events', r) :=
            process_detections frame conf_threshold focal_length_pixels rest st' in
          (events ++ events', r)
      | (events, inr e) => (events, inr e)
      end
  end.

(** [process_frame(frame, model, save_dir, conf_threshold=0.4,
    focal_length_pixels=1000)]. [model] is the detector, as the list of
    boxes it gives for a frame; [utc_timestamp] is the clock reading
    [datetime.now(timezone.utc).strftime(...)] would give. The result is the
    events in order and the returned frame, or the exception. *)
Definition process_frame
           (frame : Mat pixel3) (model : Mat pixel3 -> list detection)
           (save_dir utc_timestamp : string)
           (conf_threshold focal_length_pixels : Q)
  : list event * (Mat pixel3 + error) :=
  let detections := model frame in
  let start := mkFrameState frame false None in
  match process_detections frame conf_threshold focal_length_pixels
                           detections start with
  | (events, inr e) => (events, inr e)
  | (events, inl st) =>
      if save_frame st then
        match conf st with
        | None => (events, inr (UnboundLocalError "conf"))
        | Some conf =>
            let filename :=
              ("detection_" ++ utc_timestamp ++ "_conf_"
               ++ fixed1 (conf * 100) ++ ".jpg")%string in
            let save_path := path_join save_dir filename in
            (events ++ [Imwrite save_path (processed_frame st);
                        Print ("Saved frame to: " ++ save_path)%string],
             inl (processed_frame st))
        end
      else (events, inl (processed_frame st))
  end.

End Frames.

Definition default_scale : Q := 3 # 4.
Definition default_conf_threshold : Q := 4 # 10.

(** A small executable instance of [Canvas] and [Formatting], for the
    examples: resizing takes the nearest pixel, a polyline marks its
    vertices, a circle marks its center, text leaves the image as it is, and
    [{x:.1f}] cuts after the first decimal. *)

Module SampleHost.

Definition decimal (z : Z) : string := NilZero.string_of_int (Z.to_int z).

Definition one_decimal (q : Q) : string :=
  let t := int (q * 10) in
  (decimal (Z.quot t 10) ++ "." ++ decimal (Z.abs (Z.rem t 10)))%string.

Definition at_pixel (p : point) (i j : nat) : bool :=
  (fst p =? Z.of_nat j)%Z && (snd p =? Z.of_nat i)%Z.

Definition canvas : Canvas := {|
  resize_area := fun src h w i j =>
    px src (i * rows src / h)%nat (j * cols src / w)%nat;
  polylines_px := fun img pts _ color _ i j =>
    if existsb (existsb (fun p => at_pixel p i j)) pts then color
    else px img i j;
  circle_px := fun img c _ color _ i j =>
    if at_pixel c i j then color else px img i j;
  putText_px := fun img _ _ _ _ _ i j => px img i j
|}.

Definition formatting : Formatting := {|
  str_int := decimal;
  fixed1 := one_decimal;
  str_pair := fun p =>
    ("(" ++ one_decimal (fst p) ++ ", " ++ one_decimal (snd p) ++ ")")%string;
  path_join := fun a b => (a ++ "/" ++ b)%string
|}.

(** A white frame of 3x3 pixels. *)
Definition tiny_frame : Mat pixel3 := mkMat 3 3 (fun _ _ => (255, 255, 255)%Z).

(** A strong detection of the whole of [tiny_frame], and a weak one of a
    sliver less than a pixel wide. *)
Definition strong : detection := mkDetection 0 (9 # 10) (0, 0, 3, 3).
Definition weak : detection := mkDetection 1 (1 # 10) (6 # 5, 0, 19 # 10, 3).

(** A detection above the threshold whose crop is empty. *)
Definition sliver : detection := mkDetection 1 (1 # 2) (6 # 5, 0, 19 # 10, 3).

End SampleHost.

(** ** Predicates of the specification *)

(** A two-level image: inside its shape every pixel is 0 or 255. *)
Definition two_level (m : Mat Z) : Prop :=
  forall i j, (i < rows m)%nat -> (j < cols m)%nat ->
    px m i j = 0%Z \/ px m i j = 255%Z.

(** A binary mask over [roi]: the shape of [roi], and two-level. *)
Definition mask_of {A : Type} (roi : Mat A) (m : Mat Z) : Prop :=
  rows m = rows roi /\ cols m = cols roi /\ two_level m.

(** Pixel [(i, j)] of a mask is foreground. *)
Definition foreground (m : Mat Z) (i j : nat) : Prop := px m i j = 255%Z.

(** [z] is [q] with its fractional part dropped. *)
Definition truncation_of (q : Q) (z : Z) : Prop :=
  Qabs (q - inject_Z z) < 1 /\ Qabs (inject_Z z) <= Qabs q.

(** [z] is an integer nearest to [q]. *)
Definition rounded_to (q : Q) (z : Z) : Prop :=
  Qabs (q - inject_Z z) <= 1 # 2.

(** A detection counts when its confidence reaches the threshold. *)
Definition qualifies (conf_threshold : Q) (box : detection) : bool :=
  ge (det_conf box) conf_threshold.

(** An event that writes no file. *)
Definition is_print (e : event) : Prop :=
  match e with Print _ => True | Imwrite _ _ => False end.

(** Two loop states with the same frame and the same [save_frame] flag. *)
Definition same_frame (st1 st2 : frame_state) : Prop :=
  processed_frame st1 = processed_frame st2 /\ save_frame st1 = save_frame st2.

(** Two outcomes of the loop with the same events, and the same exception
    or states with the same frame and flag. *)
Definition same_outcome (o1 o2 : list event * (frame_state + error)) : Prop :=
  fst o1 = fst o2
  /\ match snd o1, snd o2 with
     | inl st1, inl st2 => same_frame st1 st2
     | inr e1, inr e2 => e1 = e2
     | _, _ => False
     end.

(** ** Properties *)

(** *** Shapes and success of the binarizer *)

Lemma same_size_refl {A : Type} (m : Mat A) : same_size m m = true.
Proof.
  unfold same_size. now rewrite !Nat.eqb_refl.
Qed.

Lemma same_size_eq {A B : Type} (a : Mat A) (b : Mat B) :
  rows a = rows b -> cols a = cols b -> same_size a b = true.
Proof.
  intros Hr Hc. unfold same_size. rewrite Hr, Hc, !Nat.eqb_refl. reflexivity.
Qed.

Create HintDb masks.

Section Binarizer.
Context {ip : Imgproc}.

Lemma enhance_image_ok (roi : Mat pixel3) :
  empty roi = false ->
  exists enhanced,
    enhance_image roi = Ok enhanced
    /\ rows enhanced = rows roi /\ cols enhanced = cols roi.
Proof.
  intros Hne. unfold enhance_image, cvtColor.
  rewrite Hne. cbn [bind split]. unfold merge.
  rewrite !same_size_eq by reflexivity. cbn [andb bind].
  unfold empty in *. cbn [rows cols like map_px CLAHE_apply] in *.
  rewrite Hne. eexists. split; [ reflexivity | split; reflexivity ].
Qed.

Lemma threshold_masks_ok (roi : Mat pixel3) :
  empty roi = false ->
  exists blurred,
    threshold_masks roi
    = Ok (snd (threshold_BINARY_OTSU blurred 0 255),
          adaptiveThreshold_GAUSSIAN_BINARY blurred 255 11 2)
    /\ rows blurred = rows roi /\ cols blurred = cols roi.
Proof.
  intros Hne. unfold threshold_masks.
  destruct (enhance_image_ok roi Hne) as (enhanced & -> & Hr & Hc).
  cbn [bind]. unfold cvtColor_BGR2GRAY.
  assert (empty enhanced = false) as -> by (unfold empty in *; now rewrite Hr, Hc).
  cbn [bind]. eexists. split; [ reflexivity | ].
  cbn [GaussianBlur like map_px rows cols]. now split.
Qed.

Lemma threshold_two_level (src : Mat Z) :
  two_level (snd (threshold_BINARY_OTSU src 0 255)).
Proof.
  intros i j _ _. cbn. destruct (otsu src <? px src i j)%Z; auto.
Qed.

Lemma adaptiveThreshold_two_level (src : Mat Z) (blockSize : nat) (C : Z) :
  two_level (adaptiveThreshold_GAUSSIAN_BINARY src 255 blockSize C).
Proof.
  intros i j _ _. cbn.
  destruct (gaussian_mean blockSize src i j - C <? px src i j)%Z; auto.
Qed.

Lemma lor_two_level (a b : Z) :
  (a = 0 \/ a = 255)%Z -> (b = 0 \/ b = 255)%Z ->
  (Z.lor a b = 0 \/ Z.lor a b = 255)%Z
  /\ (Z.lor a b = 255 <-> a = 255 \/ b = 255)%Z.
Proof.
  intros [-> | ->] [-> | ->]; cbn; split; auto; split; auto;
    intros [E | E]; auto; discriminate E.
Qed.

Lemma bitwise_or_same_size (a b : Mat Z) :
  rows a = rows b -> cols a = cols b ->
  bitwise_or a b = Ok (like a (fun i j => Z.lor (px a i j) (px b i j))).
Proof.
  intros Hr Hc. unfold bitwise_or. now rewrite same_size_eq.
Qed.

Lemma neighbourhood_two_level (src kernel : Mat Z) (i j : nat) :
  two_level src ->
  Forall (fun v => v = 0 \/ v = 255)%Z (neighbourhood src kernel i j).
Proof.
  intros Hsrc. unfold neighbourhood. apply Forall_flat_map, Forall_forall.
  intros [ky kx] _.
  match goal with |- Forall _ (if ?c then _ else _) => destruct c eqn:Hc end;
    [ | constructor ].
  repeat (apply andb_prop in Hc; destruct Hc as [Hc ?]).
  constructor; [ | constructor ].
  apply Hsrc; now apply Nat.ltb_lt.
Qed.

Lemma fold_max_two_level (l : list Z) :
  Forall (fun v => v = 0 \/ v = 255)%Z l ->
  (fold_right Z.max 0 l = 0 \/ fold_right Z.max 0 l = 255)%Z.
Proof.
  induction 1 as [ | v l Hv _ IH ]; cbn [fold_right]; [ now left | lia ].
Qed.

Lemma fold_min_two_level (l : list Z) :
  Forall (fun v => v = 0 \/ v = 255)%Z l ->
  (fold_right Z.min 255 l = 0 \/ fold_right Z.min 255 l = 255)%Z.
Proof.
  induction 1 as [ | v l Hv _ IH ]; cbn [fold_right]; [ now right | lia ].
Qed.

Lemma dilate_mask_of {A : Type} (roi : Mat A) (src kernel : Mat Z) :
  mask_of roi src -> mask_of roi (dilate src kernel).
Proof.
  intros (Hr & Hc & Hv). repeat split; try assumption.
  intros i j _ _. cbn [dilate like px].
  now apply fold_max_two_level, neighbourhood_two_level.
Qed.

Lemma erode_mask_of {A : Type} (roi : Mat A) (src kernel : Mat Z) :
  mask_of roi src -> mask_of roi (erode src kernel).
Proof.
  intros (Hr & Hc & Hv). repeat split; try assumption.
  intros i j _ _. cbn [erode like px].
  now apply fold_min_two_level, neighbourhood_two_level.
Qed.

#[local] Hint Resolve dilate_mask_of erode_mask_of : masks.

Lemma morphologyEx_mask_of {A : Type} (roi : Mat A) (src kernel : Mat Z)
      (op : MorphType) :
  mask_of roi src -> mask_of roi (morphologyEx src op kernel).
Proof.
  intros H. destruct op; cbn [morphologyEx]; auto with masks.
Qed.

#[local] Hint Resolve morphologyEx_mask_of : masks.

(** [get_binary_mask] is its stages put together. *)
Lemma get_binary_mask_stages_eq (roi : Mat pixel3) :
  get_binary_mask roi
  = (masks <- threshold_masks roi ;;
     binary <- bitwise_or (fst masks) (snd masks) ;;
     Ok (cleanup binary)).
Proof.
  unfold get_binary_mask, threshold_masks.
  destruct (enhance_image roi) as [enhanced | e]; cbn [bind]; [ | reflexivity ].
  destruct (cvtColor_BGR2GRAY enhanced); reflexivity.
Qed.

(** The stages of [get_binary_mask] on a non-empty sub-image. *)
Lemma get_binary_mask_stages (roi : Mat pixel3) :
  empty roi = false ->
  exists blurred thresh1 thresh2 combined,
    thresh1 = snd (threshold_BINARY_OTSU blurred 0 255)
    /\ thresh2 = adaptiveThreshold_GAUSSIAN_BINARY blurred 255 11 2
    /\ combined = like thresh1 (fun i j => Z.lor (px thresh1 i j) (px thresh2 i j))
    /\ rows blurred = rows roi /\ cols blurred = cols roi
    /\ threshold_masks roi = Ok (thresh1, thresh2)
    /\ bitwise_or thresh1 thresh2 = Ok combined
    /\ get_binary_mask roi = Ok (cleanup combined).
Proof.
  intros Hne.
  destruct (threshold_masks_ok roi Hne) as (blurred & Hm & Hr & Hc).
  exists blurred. do 3 eexists.
  split; [ reflexivity | ]. split; [ reflexivity | ]. split; [ reflexivity | ].
  split; [ exact Hr | ]. split; [ exact Hc | ]. split; [ exact Hm | ].
  assert (bitwise_or (snd (threshold_BINARY_OTSU blurred 0 255))
                     (adaptiveThreshold_GAUSSIAN_BINARY blurred 255 11 2)
          = Ok (like (snd (threshold_BINARY_OTSU blurred 0 255))
                     (fun i j =>
                        Z.lor (px (snd (threshold_BINARY_OTSU blurred 0 255)) i j)
                              (px (adaptiveThreshold_GAUSSIAN_BINARY blurred 255 11 2) i j))))
    as Hor by (apply bitwise_or_same_size; reflexivity).
  split; [ exact Hor | ].
  rewrite get_binary_mask_stages_eq, Hm. cbn [bind fst snd].
  rewrite Hor. reflexivity.
Qed.

(** C8: on a non-empty sub-image [get_binary_mask] returns a single-channel
    image of the sub-image's height and width whose pixels are all 0 or 255;
    the same holds of both threshold masks, of their OR-combination, of the
    closed mask and of the opened mask that is returned. *)
Theorem get_binary_mask_is_mask (roi : Mat pixel3) :
  empty roi = false ->
  exists thresh1 thresh2 combined closed opened,
    threshold_masks roi = Ok (thresh1, thresh2)
    /\ bitwise_or thresh1 thresh2 = Ok combined
    /\ closed = morphologyEx combined MORPH_CLOSE (ones 3 3)
    /\ opened = morphologyEx closed MORPH_OPEN (ones 3 3)
    /\ get_binary_mask roi = Ok opened
    /\ mask_of roi thresh1 /\ mask_of roi thresh2
    /\ mask_of roi combined /\ mask_of roi closed /\ mask_of roi opened.
Proof.
  intros Hne.
  destruct (get_binary_mask_stages roi Hne)
    as (blurred & t1 & t2 & combined & E1 & E2 & Ec & Hr & Hc & Hm & Hor & Hg).
  assert (mask_of roi t1) as M1.
  { subst t1. repeat split; try assumption. apply threshold_two_level. }
  assert (mask_of roi t2) as M2.
  { subst t2. repeat split; try assumption. apply adaptiveThreshold_two_level. }
  assert (mask_of roi combined) as Mc.
  { destruct M1 as (R1 & C1 & V1), M2 as (R2 & C2 & V2).
    subst combined. repeat split; try assumption.
    intros i j Hi Hj. cbn [like rows cols px] in *.
    apply lor_two_level; [ apply V1 | apply V2 ]; congruence. }
  exists t1, t2, combined. do 2 eexists.
  split; [ exact Hm | ]. split; [ exact Hor | ].
  split; [ reflexivity | ]. split; [ reflexivity | ].
  split; [ exact Hg | ].
  repeat (split; [ solve [ auto with masks ] | ]). auto with masks.
Qed.

(** C7: before the morphological cleanup, the combined mask is the pointwise
    OR of the Otsu mask and the adaptive mask: a pixel is foreground in it if
    and only if it is foreground in at least one of the two. *)
Theorem combined_mask_is_union (roi : Mat pixel3) :
  empty roi = false ->
  exists blurred thresh1 thresh2 combined,
    thresh1 = snd (threshold_BINARY_OTSU blurred 0 255)
    /\ thresh2 = adaptiveThreshold_GAUSSIAN_BINARY blurred 255 11 2
    /\ threshold_masks roi = Ok (thresh1, thresh2)
    /\ bitwise_or thresh1 thresh2 = Ok combined
    /\ get_binary_mask roi = Ok (cleanup combined)
    /\ forall i j, (i < rows roi)%nat -> (j < cols roi)%nat ->
         px combined i j = Z.lor (px thresh1 i j) (px thresh2 i j)
         /\ (foreground combined i j
             <-> foreground thresh1 i j \/ foreground thresh2 i j).
Proof.
  intros Hne.
  destruct (get_binary_mask_stages roi Hne)
    as (blurred & t1 & t2 & combined & E1 & E2 & Ec & Hr & Hc & Hm & Hor & Hg).
  exists blurred, t1, t2, combined.
  repeat (split; [ assumption | ]).
  intros i j Hi Hj. unfold foreground. subst combined. cbn [like px].
  split; [ reflexivity | ].
  apply lor_two_level.
  - subst t1. apply threshold_two_level; cbn; congruence.
  - subst t2. apply adaptiveThreshold_two_level; cbn; congruence.
Qed.

End Binarizer.

(** *** The contour selector, the shape fitter and the coordinate mapper *)

Lemma gt_true_iff (a b : Q) : gt a b = true <-> b < a.
Proof.
  unfold gt. rewrite negb_true_iff, <- not_true_iff_false, Qle_bool_iff.
  split; [ apply Qnot_le_lt | apply Qlt_not_le ].
Qed.

Lemma max_from_spec {A : Type} (key : A -> Q) (l : list A) :
  forall best,
    In (max_from key best l) (best :: l)
    /\ forall x, In x (best :: l) -> key x <= key (max_from key best l).
Proof.
  induction l as [ | y l IH ]; intros best; cbn [max_from].
  - split; [ now left | ]. intros x [<- | []]. apply Qle_refl.
  - destruct (gt (key y) (key best)) eqn:E.
    + apply gt_true_iff in E.
      destruct (IH y) as (Hin & Hmax). split.
      * right. exact Hin.
      * intros x [<- | Hx]; [ | now apply Hmax ].
        apply Qle_trans with (key y); [ now apply Qlt_le_weak | ].
        apply Hmax. now left.
    + assert (key y <= key best) as Hle.
      { apply Qnot_lt_le. intros H. apply gt_true_iff in H. congruence. }
      destruct (IH best) as (Hin & Hmax). split.
      * destruct Hin as [<- | Hin]; [ now left | right; now right ].
      * intros x [<- | [<- | Hx]].
        -- apply Hmax. now left.
        -- apply Qle_trans with (key best); [ exact Hle | ].
           apply Hmax. now left.
        -- apply Hmax. now right.
Qed.

Lemma max_nonempty {A : Type} (key : A -> Q) (l : list A) :
  l <> [] ->
  exists c, Py.max key l = Ok c
            /\ In c l /\ forall x, In x l -> key x <= key c.
Proof.
  destruct l as [ | y l ]; [ congruence | intros _ ].
  exists (max_from key y l). split; [ reflexivity | apply max_from_spec ].
Qed.

Lemma int_truncation (q : Q) : truncation_of q (int q).
Proof.
  destruct q as [n d]. unfold truncation_of, int. cbn [Qnum Qden].
  pose proof (Z.quot_rem' n (Z.pos d)) as Hqr.
  pose proof (Z.rem_bound_abs n (Z.pos d) ltac:(lia)) as Hb.
  split.
  - unfold Qlt, Qabs, Qminus, Qplus, Qopp, inject_Z. cbn [Qnum Qden].
    rewrite Pos.mul_1_r.
    replace (n * 1 + - (n ÷ Z.pos d) * Z.pos d)%Z
      with (Z.rem n (Z.pos d)) by lia.
    lia.
  - unfold Qle, Qabs, inject_Z. cbn [Qnum Qden].
    rewrite <- (Z.quot_abs n (Z.pos d)) by lia.
    pose proof (Z.mul_quot_le (Z.abs n) (Z.abs (Z.pos d))
                  ltac:(lia) ltac:(lia)).
    lia.
Qed.

Lemma int0_truncation (box : list (Q * Q)) :
  Forall2 (fun (q : Q * Q) (p : point) =>
             truncation_of (fst q) (fst p) /\ truncation_of (snd q) (snd p))
          box (int0 box).
Proof.
  induction box as [ | q box IH ]; cbn [int0 map]; constructor;
    [ split; apply int_truncation | exact IH ].
Qed.

Lemma to_frame_eq (x1 y1 : Z) (r : RotatedRect) (box : list point) :
  to_frame x1 y1 (r, box)
  = (mkRotatedRect (fst (center r) + inject_Z x1, snd (center r) + inject_Z y1)
                   (size r) (angle r),
     map (fun p : point => (fst p + x1, snd p + y1)%Z) box).
Proof.
  unfold to_frame, add_to_column0, add_to_column1.
  destruct (center r) as [cx cy]. cbn [fst snd].
  rewrite map_map. reflexivity.
Qed.

Lemma Qplus_inject_0 (q : Q) : q + inject_Z 0 = q.
Proof.
  destruct q as [n d]. unfold Qplus, inject_Z. cbn [Qnum Qden].
  f_equal; [ lia | apply Pos.mul_1_r ].
Qed.

(** C9: the coordinate mapping with offset [(0, 0)] changes neither the
    rectangle (center, size, angle) nor the integer box points; applied to a
    result that is already mapped, it gives that result back. *)
Theorem to_frame_zero_offset :
  (forall (r : RotatedRect) (box : list point), to_frame 0 0 (r, box) = (r, box))
  /\ (forall (x1 y1 : Z) (r : RotatedRect) (box : list point),
        to_frame 0 0 (to_frame x1 y1 (r, box)) = to_frame x1 y1 (r, box)).
Proof.
  assert (forall r box, to_frame 0 0 (r, box) = (r, box)) as H0.
  { intros [[cx cy] sz a] box. rewrite to_frame_eq. cbn [center size angle fst snd].
    rewrite !Qplus_inject_0. apply f_equal.
    rewrite <- (map_id box) at 2. apply map_ext.
    intros [x y]. cbn [fst snd]. now rewrite !Z.add_0_r. }
  split; [ exact H0 | ].
  intros x1 y1 r box. destruct (to_frame x1 y1 (r, box)) as [r' box']. apply H0.
Qed.

Section Selector.
Context {ip : Imgproc}.

Lemma append_loop_filter {A : Type} (f : A -> bool) (l : list A) :
  forall acc,
    fold_left (fun acc x => if f x then acc ++ [x] else acc) l acc
    = acc ++ filter f l.
Proof.
  induction l as [ | x l IH ]; intros acc; cbn [fold_left filter].
  - now rewrite app_nil_r.
  - rewrite IH. destruct (f x); [ | reflexivity ].
    now rewrite <- app_assoc.
Qed.

(** The loop that builds [valid_contours] is a filter. *)
Lemma valid_contours_filter (roi_area : nat) (ratio : Q)
      (contours : list contour) :
  valid_contours roi_area ratio contours
  = filter (fun c => gt (contourArea c) (inject_Z (Z.of_nat roi_area) * ratio))
           contours.
Proof.
  unfold valid_contours.
  exact (append_loop_filter
           (fun c => gt (contourArea c) (inject_Z (Z.of_nat roi_area) * ratio))
           contours []).
Qed.

Lemma valid_contours_In (roi_area : nat) (ratio : Q) (contours : list contour)
      (c : contour) :
  In c (valid_contours roi_area ratio contours)
  <-> In c contours
      /\ inject_Z (Z.of_nat roi_area) * ratio < contourArea c.
Proof.
  rewrite valid_contours_filter, filter_In, gt_true_iff. reflexivity.
Qed.

Lemma threshold_monotone (roi_area : nat) (r1 r2 : Q) :
  r1 <= r2 ->
  inject_Z (Z.of_nat roi_area) * r1 <= inject_Z (Z.of_nat roi_area) * r2.
Proof.
  intros H. rewrite !(Qmult_comm (inject_Z _)).
  apply Qmult_le_compat_r; [ exact H | ].
  unfold Qle, inject_Z. cbn [Qnum Qden]. lia.
Qed.

(** C4: for a fixed mask and thresholds [r1 <= r2], every contour the area
    filter keeps at ratio [r2] is kept at ratio [r1], so raising the ratio
    never increases the number of contours kept. *)
Theorem area_filter_antitone (binary : Mat Z) (r1 r2 : Q) :
  r1 <= r2 ->
  let contours := findContours binary in
  let roi_area := (rows binary * cols binary)%nat in
  incl (valid_contours roi_area r2 contours) (valid_contours roi_area r1 contours)
  /\ (List.length (valid_contours roi_area r2 contours)
      <= List.length (valid_contours roi_area r1 contours))%nat.
Proof.
  intros Hr contours roi_area.
  pose proof (threshold_monotone roi_area Hr) as Ht.
  split.
  - intros c Hc. apply valid_contours_In in Hc as [Hin Hlt].
    apply valid_contours_In. split; [ exact Hin | ].
    eapply Qle_lt_trans; eassumption.
  - rewrite !valid_contours_filter.
    induction contours as [ | c cs IH ]; cbn [filter]; [ lia | ].
    destruct (gt (contourArea c) (inject_Z (Z.of_nat roi_area) * r2)) eqn:E2.
    + apply gt_true_iff in E2.
      assert (gt (contourArea c) (inject_Z (Z.of_nat roi_area) * r1) = true) as ->.
      { apply gt_true_iff. eapply Qle_lt_trans; eassumption. }
      cbn [List.length]. lia.
    + destruct (gt (contourArea c) (inject_Z (Z.of_nat roi_area) * r1));
        cbn [List.length]; lia.
Qed.

End Selector.

Section Fit.
Context {ip : Imgproc} {fit : Fitting}.

(** [get_accurate_rotated_bbox] is its stages put together: once the mask
    is there, the selector, the fitter and the mapper. *)
Lemma get_accurate_rotated_bbox_stages_eq
      (image : Mat pixel3) (bbox : Q * Q * Q * Q) (ratio : Q) (binary : Mat Z) :
  get_binary_mask (roi_of image bbox) = Ok binary ->
  get_accurate_rotated_bbox image bbox ratio
  = let roi := roi_of image bbox in
    let valid :=
      valid_contours (rows roi * cols roi) ratio (findContours binary) in
    match valid with
    | [] => Ok (None, None)
    | _ :: _ =>
        c <- Py.max contourArea valid ;;
        let (adjusted_rect, box) :=
          to_frame (fst (offset_of bbox)) (snd (offset_of bbox)) (fit_shape c) in
        Ok (Some adjusted_rect, Some box)
    end.
Proof.
  destruct bbox as [[[x1 y1] x2] y2]. intros Hmask.
  unfold get_accurate_rotated_bbox, roi_of, offset_of in *.
  rewrite Hmask. cbn [bind fst snd].
  destruct (findContours binary) as [ | c0 cs ] eqn:Ec; [ reflexivity | ].
  cbn [is_empty].
  match goal with
  | |- context [fold_left ?f (c0 :: cs) []] =>
      change (fold_left f (c0 :: cs) [])
        with (valid_contours
                (rows (crop image (int y1) (int y2) (int x1) (int x2))
                 * cols (crop image (int y1) (int y2) (int x1) (int x2)))
                ratio (c0 :: cs))
  end.
  destruct (valid_contours _ ratio (c0 :: cs)) as [ | v vs ]; [ reflexivity | ].
  cbn [is_empty].
  destruct (Py.max contourArea (v :: vs)) as [c | e]; cbn [bind]; [ | reflexivity ].
  unfold to_frame, fit_shape.
  destruct (center _) as [center_x center_y]. reflexivity.
Qed.

(** C1 (defect of the code): when the crop of the detection box has zero
    width or zero height, [get_accurate_rotated_bbox] does not return the
    "no result" pair; the call of [cvtColor] in [enhance_image] raises and
    the error leaves the function. *)
Theorem empty_region_raises
        (image : Mat pixel3) (bbox : Q * Q * Q * Q) (ratio : Q) :
  empty (roi_of image bbox) = true ->
  enhance_image (roi_of image bbox) = Raise (CvError "cvtColor")
  /\ get_accurate_rotated_bbox image bbox ratio = Raise (CvError "cvtColor").
Proof.
  intros Hempty.
  assert (enhance_image (roi_of image bbox) = Raise (CvError "cvtColor")) as He.
  { unfold enhance_image, cvtColor. now rewrite Hempty. }
  split; [ exact He | ].
  destruct bbox as [[[x1 y1] x2] y2].
  unfold get_accurate_rotated_bbox, roi_of in *.
  unfold get_binary_mask. now rewrite He.
Qed.

(** C5: when no contour survives the area filter (in particular when the
    mask has no contour at all), [get_accurate_rotated_bbox] returns
    [(None, None)]; no exception is raised, and the result is the same
    whatever the fitting operations are, none of them being used. *)
Theorem no_shape_found
        (image : Mat pixel3) (bbox : Q * Q * Q * Q) (ratio : Q) (binary : Mat Z) :
  get_binary_mask (roi_of image bbox) = Ok binary ->
  findContours binary = []
  \/ valid_contours (rows (roi_of image bbox) * cols (roi_of image bbox))
                    ratio (findContours binary) = [] ->
  get_accurate_rotated_bbox image bbox ratio = Ok (None, None).
Proof.
  intros Hmask Hnone.
  rewrite (get_accurate_rotated_bbox_stages_eq image bbox ratio Hmask).
  cbv zeta.
  assert (valid_contours (rows (roi_of image bbox) * cols (roi_of image bbox))
                         ratio (findContours binary) = []) as ->.
  { destruct Hnone as [-> | H]; [ reflexivity | exact H ]. }
  reflexivity.
Qed.

(** C6: when the filtered list is not empty, the result is computed from one
    contour [c] of the list, of the largest area in it: [c] is simplified by
    [approxPolyDP] with tolerance 2% of its perimeter, the convex hull of the
    simplified polygon is taken, the minimum-area rectangle is fitted around
    the hull, and its four corners are cast to integers (the fractional part
    is dropped) before the result is mapped to frame coordinates. *)
Theorem fitted_from_largest_contour
        (image : Mat pixel3) (bbox : Q * Q * Q * Q) (ratio : Q) (binary : Mat Z) :
  get_binary_mask (roi_of image bbox) = Ok binary ->
  let roi := roi_of image bbox in
  let valid := valid_contours (rows roi * cols roi) ratio (findContours binary) in
  valid <> [] ->
  exists (c : contour) (box : list point),
    In c valid
    /\ (forall c', In c' valid -> contourArea c' <= contourArea c)
    /\ let epsilon := (2 # 100) * arcLength c true in
       let hull := convexHull (approxPolyDP c epsilon true) in
       let rotated_rect := minAreaRect hull in
       Forall2 (fun (q : Q * Q) (p : point) =>
                  truncation_of (fst q) (fst p) /\ truncation_of (snd q) (snd p))
               (boxPoints rotated_rect) box
       /\ fit_shape c = (rotated_rect, box)
       /\ get_accurate_rotated_bbox image bbox ratio
          = Ok (Some (fst (to_frame (fst (offset_of bbox)) (snd (offset_of bbox))
                                    (rotated_rect, box))),
                Some (snd (to_frame (fst (offset_of bbox)) (snd (offset_of bbox))
                                    (rotated_rect, box)))).
Proof.
  intros Hmask roi valid Hne.
  destruct (max_nonempty contourArea Hne) as (c & Hmax & Hin & Hle).
  exists c, (int0 (boxPoints (minAreaRect
               (convexHull (approxPolyDP c ((2 # 100) * arcLength c true) true))))).
  split; [ exact Hin | ]. split; [ exact Hle | ]. cbv zeta.
  split; [ apply int0_truncation | ]. split; [ reflexivity | ].
  rewrite (get_accurate_rotated_bbox_stages_eq image bbox ratio Hmask).
  cbv zeta. fold roi. fold valid.
  destruct valid as [ | c0 cs ] eqn:Ev; [ congruence | ].
  rewrite Hmax. cbn [bind]. unfold fit_shape.
  destruct (to_frame _ _ _) as [adjusted box']. reflexivity.
Qed.

(** C2: whenever a rectangle is fitted in the sub-image, the returned
    rectangle has the local center translated by the offset [(x1, y1)] of the
    sub-image, the same size and the same angle, and every returned box point
    is the local box point translated by [(x1, y1)]. *)
Theorem mapped_result_is_translated
        (image : Mat pixel3) (bbox : Q * Q * Q * Q) (ratio : Q) (binary : Mat Z) :
  get_binary_mask (roi_of image bbox) = Ok binary ->
  let roi := roi_of image bbox in
  let valid := valid_contours (rows roi * cols roi) ratio (findContours binary) in
  valid <> [] ->
  exists (c : contour) (local_rect adjusted_rect : RotatedRect)
         (local_box box : list point),
    Py.max contourArea valid = Ok c
    /\ fit_shape c = (local_rect, local_box)
    /\ get_accurate_rotated_bbox image bbox ratio
       = Ok (Some adjusted_rect, Some box)
    /\ let (x1, y1) := offset_of bbox in
       center adjusted_rect
       = (fst (center local_rect) + inject_Z x1,
          snd (center local_rect) + inject_Z y1)
       /\ size adjusted_rect = size local_rect
       /\ angle adjusted_rect = angle local_rect
       /\ box = map (fun p : point => (fst p + x1, snd p + y1)%Z) local_box.
Proof.
  intros Hmask roi valid Hne.
  destruct (max_nonempty contourArea Hne) as (c & Hmax & _ & _).
  destruct (fit_shape c) as [local_rect local_box] eqn:Efit.
  exists c, local_rect.
  exists (fst (to_frame (fst (offset_of bbox)) (snd (offset_of bbox))
                        (local_rect, local_box))).
  exists local_box.
  exists (snd (to_frame (fst (offset_of bbox)) (snd (offset_of bbox))
                        (local_rect, local_box))).
  split; [ exact Hmax | ]. split; [ exact Efit | ]. split.
  - rewrite (get_accurate_rotated_bbox_stages_eq image bbox ratio Hmask).
    cbv zeta. fold roi. fold valid.
    destruct valid as [ | c0 cs ] eqn:Ev; [ congruence | ].
    rewrite Hmax. cbn [bind]. rewrite Efit.
    destruct (to_frame _ _ _) as [adjusted box']. reflexivity.
  - rewrite to_frame_eq. destruct (offset_of bbox) as [x1 y1].
    cbn [fst snd center size angle]. repeat split; reflexivity.
Qed.

End Fit.

(** *** The metric converter *)

Lemma truediv_nonzero (a b : Q) : ~ b == 0 -> truediv a b = Ok (a / b).
Proof.
  intros Hb. unfold truediv.
  destruct (Qeq_bool b 0) eqn:E; [ | reflexivity ].
  apply Qeq_bool_iff in E. contradiction.
Qed.

Lemma truediv_zero (a b : Q) : b == 0 -> truediv a b = Raise ZeroDivisionError.
Proof.
  intros Hb. unfold truediv.
  apply Qeq_bool_iff in Hb. now rewrite Hb.
Qed.

(** C3: with a non-zero focal length, [pixel_to_cm] returns the pair
    [(width_pixels * depth / focal, height_pixels * depth / focal)], each
    component computed on its own; on [(1000, 500, 100, 1000)] the pair is
    [(100, 50)]. *)
Theorem pixel_to_cm_formula :
  (forall w h d f : Q, ~ f == 0 ->
     pixel_to_cm w h d f = Ok ((w * d) / f, (h * d) / f))
  /\ (exists wc hc : Q,
        pixel_to_cm 1000 500 100 1000 = Ok (wc, hc) /\ wc == 100 /\ hc == 50).
Proof.
  split.
  - intros w h d f Hf. unfold pixel_to_cm.
    rewrite !truediv_nonzero by assumption. reflexivity.
  - eexists. eexists. split; [ reflexivity | split; reflexivity ].
Qed.

Lemma pixel_to_cm_formula_witness :
  ~ (2 # 1) == 0 /\ pixel_to_cm 3 4 10 2 = Ok ((3 * 10) / 2, (4 * 10) / 2).
Proof.
  split.
  - discriminate.
  - apply (proj1 pixel_to_cm_formula). discriminate.
Defined.

(** C10: [pixel_to_cm] divides without a guard. With a non-zero focal length
    it returns a value; with a zero focal length it raises
    [ZeroDivisionError] instead of returning. *)
Theorem pixel_to_cm_total_iff_focal_nonzero (w h d f : Q) :
  (~ f == 0 -> exists r, pixel_to_cm w h d f = Ok r)
  /\ (f == 0 -> pixel_to_cm w h d f = Raise ZeroDivisionError).
Proof.
  split; intros Hf; unfold pixel_to_cm.
  - rewrite !truediv_nonzero by assumption. eexists. reflexivity.
  - rewrite truediv_zero by assumption. reflexivity.
Qed.

Lemma pixel_to_cm_total_iff_focal_nonzero_witness :
  (exists r, pixel_to_cm 1000 500 100 1000 = Ok r)
  /\ pixel_to_cm 1000 500 100 0 = Raise ZeroDivisionError.
Proof.
  split.
  - apply (proj1 (pixel_to_cm_total_iff_focal_nonzero 1000 500 100 1000)).
    discriminate.
  - apply (proj2 (pixel_to_cm_total_iff_focal_nonzero 1000 500 100 0)).
    reflexivity.
Defined.

(** *** The theorems at concrete frames, on the sample instance *)

Section Examples.
#[local] Existing Instance Sample.imgproc.
#[local] Existing Instance Sample.fitting.

Lemma get_binary_mask_is_mask_witness :
  let roi := roi_of Sample.block_frame (2, 1, 10, 9) in
  empty roi = false
  /\ exists opened, get_binary_mask roi = Ok opened /\ mask_of roi opened.
Proof.
  split; [ reflexivity | ].
  destruct (@get_binary_mask_is_mask Sample.imgproc
              (roi_of Sample.block_frame (2, 1, 10, 9)) eq_refl)
    as (t1 & t2 & combined & closed & opened & _ & _ & _ & _ & Hg & _ & _ & _ & _ & Hm).
  exists opened. split; [ exact Hg | exact Hm ].
Defined.

Lemma combined_mask_is_union_witness :
  let roi := roi_of Sample.block_frame (2, 1, 10, 9) in
  empty roi = false
  /\ exists thresh1 thresh2 combined,
       threshold_masks roi = Ok (thresh1, thresh2)
       /\ bitwise_or thresh1 thresh2 = Ok combined
       /\ (foreground combined 2 3
           <-> foreground thresh1 2 3 \/ foreground thresh2 2 3).
Proof.
  split; [ reflexivity | ].
  destruct (@combined_mask_is_union Sample.imgproc
              (roi_of Sample.block_frame (2, 1, 10, 9)) eq_refl)
    as (blurred & t1 & t2 & combined & _ & _ & Hm & Hor & _ & Hpx).
  exists t1, t2, combined.
  split; [ exact Hm | ]. split; [ exact Hor | ].
  apply (Hpx 2%nat 3%nat); cbn; lia.
Defined.


Lemma area_filter_antitone_witness :
  (1 # 20) <= (1 # 2)
  /\ incl (valid_contours 100 (1 # 2) (findContours Sample.block_mask))
          (valid_contours 100 (1 # 20) (findContours Sample.block_mask))
  /\ (List.length (valid_contours 100 (1 # 2) (findContours Sample.block_mask))
      <= List.length (valid_contours 100 (1 # 20) (findContours Sample.block_mask)))%nat.
Proof.
  assert ((1 # 20) <= (1 # 2)) as H by (unfold Qle; simpl; lia).
  split; [ exact H | ].
  exact (@area_filter_antitone Sample.imgproc Sample.block_mask (1 # 20) (1 # 2) H).
Defined.

Lemma empty_region_raises_witness :
  let bbox := (6 # 5, 1, 19 # 10, 8) in
  rows (roi_of Sample.block_frame bbox) = 7%nat
  /\ cols (roi_of Sample.block_frame bbox) = 0%nat
  /\ empty (roi_of Sample.block_frame bbox) = true
  /\ get_accurate_rotated_bbox Sample.block_frame bbox (1 # 10)
     = Raise (CvError "cvtColor").
Proof.
  split; [ reflexivity | ]. split; [ reflexivity | ]. split; [ reflexivity | ].
  apply (@empty_region_raises Sample.imgproc Sample.fitting
           Sample.block_frame (6 # 5, 1, 19 # 10, 8) (1 # 10)).
  reflexivity.
Defined.

Lemma no_shape_found_witness :
  exists binary,
    get_binary_mask
      (roi_of (Sample.plain 4 4 Sample.black) (0, 0, 4, 4)) = Ok binary
    /\ findContours binary = []
    /\ get_accurate_rotated_bbox
         (Sample.plain 4 4 Sample.black) (0, 0, 4, 4) (1 # 10)
       = Ok (None, None).
Proof.
  eexists. split; [ reflexivity | ]. split; [ reflexivity | ].
  eapply (@no_shape_found Sample.imgproc Sample.fitting).
  - reflexivity.
  - left. reflexivity.
Defined.

Lemma fitted_from_largest_contour_witness :
  exists (c : contour) (box : list point),
    c = [(2, 2); (2, 5); (5, 5); (5, 2)]%Z
    /\ box = [(2, 5); (2, 2); (5, 2); (5, 5)]%Z
    /\ fit_shape c
       = (mkRotatedRect (7 # 2, 7 # 2) (3, 3) 0, box)
    /\ get_accurate_rotated_bbox
         Sample.block_frame (2, 1, 10, 9) (1 # 10)
       = Ok (Some (mkRotatedRect (11 # 2, 9 # 2) (3, 3) 0),
             Some [(4, 6); (4, 3); (7, 3); (7, 6)]%Z).
Proof.
  edestruct (@fitted_from_largest_contour Sample.imgproc Sample.fitting
               Sample.block_frame (2, 1, 10, 9) (1 # 10))
    as (c & box & Hin & _ & _ & Hfit & Hres).
  - reflexivity.
  - vm_compute. discriminate.
  - vm_compute in Hin. destruct Hin as [<- | []].
    vm_compute in Hfit. injection Hfit as <-.
    do 2 eexists. split; [ reflexivity | ]. split; [ reflexivity | ].
    split; [ reflexivity | ]. rewrite Hres. reflexivity.
Defined.

Lemma mapped_result_is_translated_witness :
  exists (local_rect adjusted_rect : RotatedRect) (local_box box : list point),
    get_accurate_rotated_bbox
      Sample.block_frame (2, 1, 10, 9) (1 # 10)
    = Ok (Some adjusted_rect, Some box)
    /\ center adjusted_rect
       = (fst (center local_rect) + 2, snd (center local_rect) + 1)
    /\ size adjusted_rect = size local_rect
    /\ angle adjusted_rect = angle local_rect
    /\ box = map (fun p : point => (fst p + 2, snd p + 1)%Z) local_box.
Proof.
  edestruct (@mapped_result_is_translated Sample.imgproc Sample.fitting
               Sample.block_frame (2, 1, 10, 9) (1 # 10))
    as (c & local_rect & adjusted_rect & local_box & box & _ & _ & Hres & H).
  - reflexivity.
  - vm_compute. discriminate.
  - exists local_rect, adjusted_rect, local_box, box.
    split; [ exact Hres | exact H ].
Defined.

End Examples.

Section Tilted.
#[local] Existing Instance Sample.imgproc.
#[local] Existing Instance Sample.tilted.

(** C6 as stated fails where it says "rounded": [np.int0] drops the
    fractional part, so the corner [(0.56, 3.92)] becomes [(0, 3)], not the
    nearest integer point [(1, 4)]. With the tilted rectangles of the sample
    instance (standing for OpenCV on a rotated object) the fitted corners are
    fractional, and the box points that [get_accurate_rotated_bbox] returns
    are not the corners rounded to the nearest integers. *)
Lemma box_points_not_rounded :
  int0 [(14 # 25, 98 # 25)] = [(0, 3)%Z] /\
  let c := [(2, 2); (2, 5); (5, 5); (5, 2)]%Z in
  let epsilon := (2 # 100) * arcLength c true in
  let rotated_rect := minAreaRect (convexHull (approxPolyDP c epsilon true)) in
  get_accurate_rotated_bbox Sample.block_frame (2, 1, 10, 9) (1 # 10)
  = Ok (Some (fst (to_frame 2 1 (fit_shape c))),
        Some (snd (to_frame 2 1 (fit_shape c))))
  /\ boxPoints rotated_rect
     = [(14 # 25, 98 # 25); (77 # 25, 14 # 25);
        (161 # 25, 77 # 25); (98 # 25, 161 # 25)]
  /\ fit_shape c = (rotated_rect, [(0, 3); (3, 0); (6, 3); (3, 6)]%Z)
  /\ ~ Forall2 (fun (q : Q * Q) (p : point) =>
                  rounded_to (fst q) (fst p) /\ rounded_to (snd q) (snd p))
               (boxPoints rotated_rect) (snd (fit_shape c)).
Proof.
  cbv zeta. split; [ reflexivity | ].
  split; [ vm_compute; reflexivity | ].
  split; [ vm_compute; reflexivity | ].
  split; [ vm_compute; reflexivity | ].
  intros H. vm_compute in H. inversion H as [ | q p qs ps [Hx _] _ ]; subst.
  apply Hx. reflexivity.
Qed.

End Tilted.

(** ** Further properties of the code *)

(** *** When the pipeline returns, and what *)

Lemma max_from_first {A : Type} (key : A -> Q) (l : list A) :
  forall pre best mid,
    (forall x, In x pre -> key x < key best) ->
    (forall x, In x mid -> key x <= key best) ->
    exists before after,
      pre ++ best :: mid ++ l = before ++ max_from key best l :: after
      /\ (forall x, In x before -> key x < key (max_from key best l))
      /\ (forall x, In x after -> key x <= key (max_from key best l)).
Proof.
  induction l as [ | y l IH ]; intros pre best mid Hpre Hmid; cbn [max_from].
  - exists pre, mid. rewrite app_nil_r. auto.
  - destruct (gt (key y) (key best)) eqn:E.
    + apply gt_true_iff in E.
      destruct (IH (pre ++ best :: mid) y []) as (b & a & Heq & Hb & Ha).
      * intros x Hx. apply in_app_or in Hx as [Hx | [<- | Hx]].
        -- eapply Qlt_trans; [ now apply Hpre | exact E ].
        -- exact E.
        -- eapply Qle_lt_trans; [ now apply Hmid | exact E ].
      * intros x [].
      * exists b, a. split; [ | now split ].
        rewrite <- Heq. cbn [app]. now rewrite <- app_assoc.
    + assert (key y <= key best) as Hle.
      { apply Qnot_lt_le. intros H. apply gt_true_iff in H. congruence. }
      destruct (IH pre best (mid ++ [y])) as (b & a & Heq & Hb & Ha).
      * exact Hpre.
      * intros x Hx. apply in_app_or in Hx as [Hx | [<- | []]]; auto.
      * exists b, a. split; [ | now split ].
        rewrite <- Heq. now rewrite <- app_assoc.
Qed.

Section Outcome.
Context {ip : Imgproc} {fit : Fitting}.

Lemma get_binary_mask_nonempty (roi : Mat pixel3) :
  empty roi = false -> exists binary, get_binary_mask roi = Ok binary.
Proof.
  intros Hne.
  destruct (get_binary_mask_stages roi Hne)
    as (_ & _ & _ & combined & _ & _ & _ & _ & _ & _ & _ & Hg).
  now exists (cleanup combined).
Qed.

Lemma get_binary_mask_empty (roi : Mat pixel3) :
  empty roi = true -> get_binary_mask roi = Raise (CvError "cvtColor").
Proof.
  intros He. unfold get_binary_mask, enhance_image, cvtColor. now rewrite He.
Qed.

Lemma get_accurate_rotated_bbox_empty
      (image : Mat pixel3) (bbox : Q * Q * Q * Q) (ratio : Q) :
  empty (roi_of image bbox) = true ->
  get_accurate_rotated_bbox image bbox ratio = Raise (CvError "cvtColor").
Proof.
  intros He. apply get_binary_mask_empty in He.
  destruct bbox as [[[x1 y1] x2] y2].
  unfold get_accurate_rotated_bbox, roi_of in *. now rewrite He.
Qed.

(** The two ways [get_accurate_rotated_bbox] returns on a non-empty crop. *)
Lemma get_accurate_rotated_bbox_nonempty
      (image : Mat pixel3) (bbox : Q * Q * Q * Q) (ratio : Q) :
  empty (roi_of image bbox) = false ->
  get_accurate_rotated_bbox image bbox ratio = Ok (None, None)
  \/ exists c,
       get_accurate_rotated_bbox image bbox ratio
       = Ok (Some (fst (to_frame (fst (offset_of bbox)) (snd (offset_of bbox))
                                 (fit_shape c))),
             Some (snd (to_frame (fst (offset_of bbox)) (snd (offset_of bbox))
                                 (fit_shape c)))).
Proof.
  intros Hne. destruct (get_binary_mask_nonempty _ Hne) as (binary & Hmask).
  rewrite (get_accurate_rotated_bbox_stages_eq image bbox ratio Hmask).
  cbv zeta.
  destruct (valid_contours _ ratio (findContours binary)) as [ | v vs ] eqn:Ev;
    [ now left | right ].
  destruct (@max_nonempty _ contourArea (v :: vs)) as (c & -> & _);
    [ discriminate | ].
  exists c. cbn [bind]. now destruct (to_frame _ _ (fit_shape c)).
Qed.

(** X1: [get_accurate_rotated_bbox] returns a result exactly when the crop
    of the detection box is not empty; the only exception it can raise is
    the [cv2.error] of [cvtColor]. In particular the call of [max] never
    sees an empty list. *)
Theorem get_accurate_rotated_bbox_returns_iff_nonempty
        (image : Mat pixel3) (bbox : Q * Q * Q * Q) (ratio : Q) :
  ((exists r, get_accurate_rotated_bbox image bbox ratio = Ok r)
   <-> empty (roi_of image bbox) = false)
  /\ (forall e, get_accurate_rotated_bbox image bbox ratio = Raise e ->
                e = CvError "cvtColor").
Proof.
  destruct (empty (roi_of image bbox)) eqn:He.
  - rewrite (get_accurate_rotated_bbox_empty image bbox ratio He). split.
    + split; [ intros (r & Hr); discriminate Hr | discriminate ].
    + intros e [= <-]. reflexivity.
  - destruct (get_accurate_rotated_bbox_nonempty image bbox ratio He)
      as [-> | (c & ->)]; (split; [ split; eauto | discriminate ]).
Qed.

(** X2: the two components of a returned pair are both [None] or both
    present, so a caller that tests [rotated_box is not None] may unpack
    [rotated_rect]; when present, the box has one integer point for each
    corner of the fitted rectangle and the returned rectangle has the size
    and the angle of the fitted one. *)
Theorem result_is_all_or_nothing
        (image : Mat pixel3) (bbox : Q * Q * Q * Q) (ratio : Q)
        (rotated_rect : option RotatedRect) (rotated_box : option (list point)) :
  get_accurate_rotated_bbox image bbox ratio = Ok (rotated_rect, rotated_box) ->
  (rotated_rect = None /\ rotated_box = None)
  \/ exists c rect box,
       rotated_rect = Some rect /\ rotated_box = Some box
       /\ List.length box = List.length (boxPoints (fst (fit_shape c)))
       /\ size rect = size (fst (fit_shape c))
       /\ angle rect = angle (fst (fit_shape c)).
Proof.
  intros Hres.
  destruct (empty (roi_of image bbox)) eqn:He.
  - rewrite (get_accurate_rotated_bbox_empty image bbox ratio He) in Hres.
    discriminate Hres.
  - destruct (get_accurate_rotated_bbox_nonempty image bbox ratio He)
      as [H | (c & H)]; rewrite H in Hres;
      apply (f_equal (fun r => match r with Ok p => p | Raise _ => (None, None) end))
        in Hres;
      apply pair_equal_spec in Hres as [<- <-].
    + now left.
    + right. exists c.
      destruct (fit_shape c) as [r b] eqn:Efit. rewrite to_frame_eq.
      cbn [fst snd]. do 2 eexists.
      split; [ reflexivity | ]. split; [ reflexivity | ].
      cbn [size angle].
      unfold fit_shape in Efit. injection Efit as <- <-.
      unfold int0. rewrite !length_map. auto.
Qed.

(** X3: the contour that is fitted is the first one of the largest area in
    the filtered list: every contour before it is strictly smaller, every
    contour after it is no larger. *)
Theorem fitted_contour_is_first_largest
        (image : Mat pixel3) (bbox : Q * Q * Q * Q) (ratio : Q) (binary : Mat Z) :
  get_binary_mask (roi_of image bbox) = Ok binary ->
  let roi := roi_of image bbox in
  let valid := valid_contours (rows roi * cols roi) ratio (findContours binary) in
  valid <> [] ->
  exists before c after,
    valid = before ++ c :: after
    /\ (forall c', In c' before -> contourArea c' < contourArea c)
    /\ (forall c', In c' after -> contourArea c' <= contourArea c)
    /\ get_accurate_rotated_bbox image bbox ratio
       = Ok (Some (fst (to_frame (fst (offset_of bbox)) (snd (offset_of bbox))
                                 (fit_shape c))),
             Some (snd (to_frame (fst (offset_of bbox)) (snd (offset_of bbox))
                                 (fit_shape c)))).
Proof.
  intros Hmask roi valid Hne.
  rewrite (get_accurate_rotated_bbox_stages_eq image bbox ratio Hmask).
  cbv zeta. fold roi. fold valid.
  destruct valid as [ | v vs ]; [ congruence | ].
  destruct (@max_from_first _ contourArea vs [] v [])
    as (before & after & Heq & Hb & Ha); try (intros x []).
  exists before, (max_from contourArea v vs), after.
  split; [ exact Heq | ]. split; [ exact Hb | ]. split; [ exact Ha | ].
  cbn [Py.max bind]. now destruct (to_frame _ _ (fit_shape _)).
Qed.

End Outcome.

(** *** The contour selector as a filter *)

Lemma filter_idempotent {A : Type} (f : A -> bool) (l : list A) :
  filter f (filter f l) = filter f l.
Proof.
  induction l as [ | x l IH ]; [ reflexivity | ].
  cbn [filter]. destruct (f x) eqn:E; [ | exact IH ].
  cbn [filter]. now rewrite E, IH.
Qed.

Section SelectorOrder.
Context {ip : Imgproc}.

(** X4: the loop that builds [valid_contours] keeps the contours in the order
    [findContours] gave them; it keeps a contour exactly when its area is
    strictly above [roi_area * min_area_ratio] (an area equal to the
    threshold is dropped); and running it on its own output changes
    nothing. *)
Theorem valid_contours_keeps_order
        (roi_area : nat) (ratio : Q) (cs1 cs2 : list contour) :
  valid_contours roi_area ratio (cs1 ++ cs2)
  = valid_contours roi_area ratio cs1 ++ valid_contours roi_area ratio cs2
  /\ (forall c, In c (valid_contours roi_area ratio cs1)
                <-> In c cs1
                    /\ inject_Z (Z.of_nat roi_area) * ratio < contourArea c)
  /\ (forall c, In c cs1 ->
                contourArea c == inject_Z (Z.of_nat roi_area) * ratio ->
                ~ In c (valid_contours roi_area ratio cs1))
  /\ valid_contours roi_area ratio (valid_contours roi_area ratio cs1)
     = valid_contours roi_area ratio cs1.
Proof.
  split; [ | split; [ | split ] ].
  - rewrite !valid_contours_filter. apply filter_app.
  - intros c. apply valid_contours_In.
  - intros c _ Heq Hin. apply valid_contours_In in Hin as [_ Hlt].
    rewrite Heq in Hlt. exact (Qlt_irrefl _ Hlt).
  - rewrite !valid_contours_filter. apply filter_idempotent.
Qed.

End SelectorOrder.

(** *** The crop of a detection box *)

Lemma slice_bound_inside (len : nat) (k : Z) :
  (0 <= k <= Z.of_nat len)%Z -> slice_bound len k = Z.to_nat k.
Proof.
  intros H. unfold slice_bound.
  destruct (k <? 0)%Z eqn:E; [ apply Z.ltb_lt in E; lia | ]. lia.
Qed.

Lemma slice_bound_beyond (len : nat) (k : Z) :
  (Z.of_nat len <= k)%Z -> slice_bound len k = len.
Proof.
  intros H. unfold slice_bound.
  destruct (k <? 0)%Z eqn:E; [ apply Z.ltb_lt in E; lia | ]. lia.
Qed.

Lemma slice_bound_negative (len : nat) (k : Z) :
  (- Z.of_nat len <= k < 0)%Z -> slice_bound len k = Z.to_nat (Z.of_nat len + k).
Proof.
  intros H. unfold slice_bound.
  destruct (k <? 0)%Z eqn:E; [ | apply Z.ltb_ge in E; lia ]. lia.
Qed.

Lemma slice_bound_le (len : nat) (k : Z) : (slice_bound len k <= len)%nat.
Proof.
  unfold slice_bound.
  destruct (k <? 0)%Z eqn:E; [ apply Z.ltb_lt in E | ]; lia.
Qed.

(** X5: for a detection box inside the frame, the crop has height
    [y2 - y1] and width [x2 - x1] (coordinates after [int]), its pixel
    [(i, j)] is the frame's pixel [(y1 + i, x1 + j)], and [(x1, y1)] is the
    offset that the mapper adds: local and frame coordinates agree. *)
Theorem crop_inside_frame (image : Mat pixel3) (x1 y1 x2 y2 : Q) :
  (0 <= int x1 <= int x2)%Z -> (int x2 <= Z.of_nat (cols image))%Z ->
  (0 <= int y1 <= int y2)%Z -> (int y2 <= Z.of_nat (rows image))%Z ->
  let roi := roi_of image (x1, y1, x2, y2) in
  offset_of (x1, y1, x2, y2) = (int x1, int y1)
  /\ Z.of_nat (rows roi) = (int y2 - int y1)%Z
  /\ Z.of_nat (cols roi) = (int x2 - int x1)%Z
  /\ forall i j, px roi i j
                 = px image (Z.to_nat (int y1) + i) (Z.to_nat (int x1) + j).
Proof.
  intros Hx Hx2 Hy Hy2 roi. subst roi. unfold roi_of, crop, offset_of.
  cbn [rows cols px].
  rewrite !slice_bound_inside by lia.
  repeat split; try lia.
Qed.

(** X6: whatever the detection box, the crop is never larger than the
    frame; a box that reaches beyond the right or the bottom edge is clipped
    at the edge. *)
Theorem crop_is_clipped (image : Mat pixel3) (x1 y1 x2 y2 : Q) :
  let roi := roi_of image (x1, y1, x2, y2) in
  (rows roi <= rows image)%nat /\ (cols roi <= cols image)%nat
  /\ ((0 <= int x1 <= Z.of_nat (cols image))%Z ->
      (Z.of_nat (cols image) <= int x2)%Z ->
      Z.of_nat (cols roi) = (Z.of_nat (cols image) - int x1)%Z)
  /\ ((0 <= int y1 <= Z.of_nat (rows image))%Z ->
      (Z.of_nat (rows image) <= int y2)%Z ->
      Z.of_nat (rows roi) = (Z.of_nat (rows image) - int y1)%Z).
Proof.
  intros roi. subst roi. unfold roi_of, crop. cbn [rows cols].
  pose proof (slice_bound_le (rows image) (int y2)).
  pose proof (slice_bound_le (cols image) (int x2)).
  split; [ lia | ]. split; [ lia | ]. split; intros H1 H2.
  - rewrite (@slice_bound_inside (cols image) (int x1)),
      (@slice_bound_beyond (cols image) (int x2)) by lia. lia.
  - rewrite (@slice_bound_inside (rows image) (int y1)),
      (@slice_bound_beyond (rows image) (int y2)) by lia. lia.
Qed.

(** X7: a negative [x1] counts from the right edge when the frame is
    cropped, but it is added as it is when the result is mapped back: the
    crop starts at column [width + x1] while the mapper shifts by [x1], so
    the mapped coordinates are [width] columns to the left of the pixels
    they were fitted on. The same holds of a negative [y1]. *)
Theorem negative_offset_wraps (image : Mat pixel3) (x1 y1 x2 y2 : Q) :
  (- Z.of_nat (cols image) <= int x1 < 0)%Z ->
  let roi := roi_of image (x1, y1, x2, y2) in
  let start := Z.to_nat (Z.of_nat (cols image) + int x1) in
  (forall i j, px roi i j
               = px image (slice_bound (rows image) (int y1) + i) (start + j))
  /\ fst (offset_of (x1, y1, x2, y2)) = int x1
  /\ (Z.of_nat start - fst (offset_of (x1, y1, x2, y2)) = Z.of_nat (cols image))%Z.
Proof.
  intros Hx roi start. subst roi start. unfold roi_of, crop, offset_of.
  cbn [rows cols px fst].
  rewrite (@slice_bound_negative (cols image) (int x1)) by lia.
  repeat split; lia.
Qed.

Section InFrame.
Context {ip : Imgproc} {fit : Fitting}.

(** X8: a detection box that, after [int], has [x1 < x2], [y1 < y2] and its
    top-left corner inside the frame is enough for
    [get_accurate_rotated_bbox] to return: such a call never raises. *)
Theorem box_in_frame_never_raises
        (image : Mat pixel3) (x1 y1 x2 y2 ratio : Q) :
  (0 <= int x1 < int x2)%Z -> (int x1 < Z.of_nat (cols image))%Z ->
  (0 <= int y1 < int y2)%Z -> (int y1 < Z.of_nat (rows image))%Z ->
  exists r, get_accurate_rotated_bbox image (x1, y1, x2, y2) ratio = Ok r.
Proof.
  intros Hx Hxw Hy Hyh.
  assert (empty (roi_of image (x1, y1, x2, y2)) = false) as Hne.
  { unfold empty, roi_of, crop. cbn [rows cols].
    rewrite (@slice_bound_inside (rows image) (int y1)),
      (@slice_bound_inside (cols image) (int x1)) by lia.
    apply orb_false_iff. split; apply Nat.eqb_neq.
    - unfold slice_bound.
      destruct (int y2 <? 0)%Z eqn:E; [ apply Z.ltb_lt in E | ]; lia.
    - unfold slice_bound.
      destruct (int x2 <? 0)%Z eqn:E; [ apply Z.ltb_lt in E | ]; lia. }
  destruct (get_accurate_rotated_bbox_nonempty image (x1, y1, x2, y2) ratio Hne)
    as [H | (c & H)]; rewrite H; eauto.
Qed.

End InFrame.

(** *** Translations *)

Lemma map_add_add (a b c d : Z) (box : list point) :
  map (fun p : point => (fst p + a, snd p + b)%Z)
      (map (fun p : point => (fst p + c, snd p + d)%Z) box)
  = map (fun p : point => (fst p + (a + c), snd p + (b + d))%Z) box.
Proof.
  rewrite map_map. apply map_ext. intros [x y]. cbn [fst snd].
  f_equal; lia.
Qed.

(** X9: the coordinate mapper composes like a translation. Mapping by
    [(c, d)] and then by [(a, b)] gives the box points of the mapping by
    [(a + c, b + d)] and a rectangle with the same size and angle and an
    equal center; mapping by [(x1, y1)] and then by [(-x1, -y1)] gives the
    box points back, and a center equal to the original one. *)
Theorem to_frame_composes (a b c d : Z) (r : RotatedRect) (box : list point) :
  let once := to_frame (a + c) (b + d) (r, box) in
  let twice := to_frame a b (to_frame c d (r, box)) in
  let back := to_frame (- a) (- b) (to_frame a b (r, box)) in
  snd twice = snd once
  /\ fst (center (fst twice)) == fst (center (fst once))
  /\ snd (center (fst twice)) == snd (center (fst once))
  /\ size (fst twice) = size (fst once) /\ angle (fst twice) = angle (fst once)
  /\ snd back = box
  /\ fst (center (fst back)) == fst (center r)
  /\ snd (center (fst back)) == snd (center r)
  /\ size (fst back) = size r /\ angle (fst back) = angle r.
Proof.
  cbv zeta. rewrite !to_frame_eq. cbn [fst snd center size angle].
  rewrite !map_add_add, !inject_Z_plus, !inject_Z_opp.
  repeat split; try ring.
  rewrite <- (map_id box) at 2. apply map_ext.
  intros [x y]. cbn [fst snd]. f_equal; lia.
Qed.

(** *** The metric converter, again *)

(** X10: [pixel_to_cm] is linear in the pixel sizes, one by one: scaling
    the width in pixels by [k] and the height in pixels by [m] scales the
    width in centimetres by [k] and the height in centimetres by [m]. It is
    linear in the depth in the same way. *)
Theorem pixel_to_cm_linear (k m w h d f wc hc : Q) :
  pixel_to_cm w h d f = Ok (wc, hc) ->
  (exists wc' hc',
     pixel_to_cm (k * w) (m * h) d f = Ok (wc', hc')
     /\ wc' == k * wc /\ hc' == m * hc)
  /\ (exists wc' hc',
        pixel_to_cm w h (k * d) f = Ok (wc', hc')
        /\ wc' == k * wc /\ hc' == k * hc).
Proof.
  unfold pixel_to_cm, truediv.
  destruct (Qeq_bool f 0); cbn [bind]; [ discriminate | ].
  intros [= <- <-].
  split; do 2 eexists; (split; [ reflexivity | ]);
    split; unfold Qdiv; ring.
Qed.

(** *** Rescaling and drawing *)


Lemma int_le_of_le (q : Q) (n : nat) :
  0 <= q -> q <= inject_Z (Z.of_nat n) -> (0 <= int q <= Z.of_nat n)%Z.
Proof.
  destruct q as [a d]. unfold int, Qle, inject_Z. cbn [Qnum Qden].
  rewrite !Z.mul_1_r. intros H0 Hn. cbn in H0.
  pose proof (Z.quot_pos a (Z.pos d) ltac:(lia) ltac:(lia)).
  pose proof (Z.mul_quot_le a (Z.pos d) ltac:(lia) ltac:(lia)).
  split; [ assumption | nia ].
Qed.

Lemma quot_between (s n lo hi : Z) :
  (0 < n)%Z -> (lo * n <= s <= hi * n)%Z -> (lo <= s ÷ n <= hi)%Z.
Proof.
  intros Hn Hs.
  pose proof (Z.quot_rem' s n) as Hqr.
  pose proof (Z.rem_bound_abs s n ltac:(lia)) as Hb.
  nia.
Qed.

Lemma sum_between (zs : list Z) (lo hi : Z) :
  Forall (fun z => lo <= z <= hi)%Z zs ->
  (lo * Z.of_nat (List.length zs) <= fold_right Z.add 0 zs
   <= hi * Z.of_nat (List.length zs))%Z.
Proof.
  induction 1 as [ | z zs Hz _ IH ]; cbn [fold_right List.length]; lia.
Qed.

Lemma int_mean (s : Z) (n : nat) :
  (0 < n)%nat ->
  int (inject_Z s / inject_Z (Z.of_nat n)) = (s ÷ Z.of_nat n)%Z.
Proof.
  intros Hn. destruct n as [ | n ]; [ lia | ].
  unfold int, Qdiv, Qmult, Qinv, inject_Z. cbn [Qnum Qden Z.of_nat].
  cbn [Qnum Qden]. now rewrite Z.mul_1_r, Pos.mul_1_l.
Qed.

Section Rescale.
Context {cv : Canvas}.


(** X12: with a scale between 0 and 1, a frame returned by [rescaleFrame]
    is no larger than the frame it was given, in either direction. *)
Theorem rescaleFrame_never_enlarges
        (frame out : Mat pixel3) (scale : Q) :
  0 <= scale -> scale <= 1 ->
  rescaleFrame frame scale = Ok out ->
  (rows out <= rows frame)%nat /\ (cols out <= cols frame)%nat.
Proof.
  intros H0 H1. unfold rescaleFrame, resize.
  destruct (empty frame || _ || _); [ discriminate | ].
  intros [= <-]. cbn [rows cols].
  assert (forall n : nat,
             (0 <= int (inject_Z (Z.of_nat n) * scale) <= Z.of_nat n)%Z) as Hb.
  { intros n. apply int_le_of_le.
    - apply Qmult_le_0_compat; [ | exact H0 ].
      unfold Qle, inject_Z. cbn. lia.
    - rewrite <- (Qmult_1_r (inject_Z (Z.of_nat n))) at 2.
      rewrite !(Qmult_comm (inject_Z (Z.of_nat n))).
      apply Qmult_le_compat_r; [ exact H1 | ].
      unfold Qle, inject_Z. cbn. lia. }
  pose proof (Hb (rows frame)). pose proof (Hb (cols frame)). lia.
Qed.

(** X13: [draw_rotated_bbox] keeps the shape of the image, and the dot it
    draws is inside the extent of the box: if every box point has its [x]
    between [x_lo] and [x_hi] and its [y] between [y_lo] and [y_hi], so has
    the centre passed to [cv2.circle]. *)
Theorem drawn_center_inside_box
        (image : Mat pixel3) (rotated_box : list point) (color : pixel3)
        (thickness x_lo x_hi y_lo y_hi : Z) :
  rotated_box <> [] ->
  Forall (fun p : point => (x_lo <= fst p <= x_hi)%Z /\ (y_lo <= snd p <= y_hi)%Z)
         rotated_box ->
  let center := astype_int (mean_axis0 rotated_box) in
  draw_rotated_bbox image rotated_box color thickness
  = circle (polylines image [rotated_box] true color thickness)
           center 3 (0, 0, 255)%Z (-1)
  /\ rows (draw_rotated_bbox image rotated_box color thickness) = rows image
  /\ cols (draw_rotated_bbox image rotated_box color thickness) = cols image
  /\ (x_lo <= fst center <= x_hi)%Z /\ (y_lo <= snd center <= y_hi)%Z.
Proof.
  intros Hne Hall center. subst center.
  split; [ reflexivity | ]. split; [ reflexivity | ]. split; [ reflexivity | ].
  assert (0 < List.length rotated_box)%nat as Hlen.
  { destruct rotated_box; [ congruence | cbn; lia ]. }
  unfold astype_int, mean_axis0. cbn [fst snd].
  rewrite !int_mean by exact Hlen.
  split; apply quot_between; try lia.
  - pose proof (@sum_between (map fst rotated_box) x_lo x_hi) as Hs.
    rewrite length_map in Hs. apply Hs.
    apply Forall_map. eapply Forall_impl; [ | exact Hall ]. intros p [H _]. exact H.
  - pose proof (@sum_between (map snd rotated_box) y_lo y_hi) as Hs.
    rewrite length_map in Hs. apply Hs.
    apply Forall_map. eapply Forall_impl; [ | exact Hall ]. intros p [_ H]. exact H.
Qed.

End Rescale.

(** *** The per-frame loop *)

Section FrameLoop.
Context {ip : Imgproc} {fit : Fitting} {cv : Canvas} {fmt : Formatting}.

(** What one run of the loop body does. *)
Lemma process_detection_spec
      (frame : Mat pixel3) (thr f : Q) (st : frame_state) (box : detection)
      (events : list event) (r : frame_state + error) :
  process_detection frame thr f st box = (events, r) ->
  Forall is_print events
  /\ match r with
     | inl st' =>
         rows (processed_frame st') = rows (processed_frame st)
         /\ cols (processed_frame st') = cols (processed_frame st)
         /\ save_frame st' = save_frame st || qualifies thr box
         /\ conf st' = Some (det_conf box)
         /\ (qualifies thr box = false ->
             processed_frame st' = processed_frame st /\ events = [])
         /\ (qualifies thr box = true ->
             empty (roi_of frame (det_xyxy box)) = false
             /\ (f == 0 ->
                 get_accurate_rotated_bbox frame (det_xyxy box)
                                           default_min_area_ratio
                 = Ok (None, None)))
     | inr e =>
         qualifies thr box = true
         /\ ((e = Propagated (CvError "cvtColor")
              /\ empty (roi_of frame (det_xyxy box)) = true)
             \/ (e = Propagated ZeroDivisionError /\ f == 0))
     end.
Proof.
  unfold process_detection, qualifies.
  destruct (ge (det_conf box) thr) eqn:Eq.
  2:{ intros [= <- <-]. cbn [processed_frame save_frame conf].
      rewrite orb_false_r. repeat split; auto; discriminate. }
  destruct (empty (roi_of frame (det_xyxy box))) eqn:He.
  { rewrite (get_accurate_rotated_bbox_empty frame (det_xyxy box) _ He).
    intros [= <- <-]. split; [ constructor | ]. split; [ reflexivity | ].
    left. now split. }
  destruct (get_accurate_rotated_bbox_nonempty
              frame (det_xyxy box) default_min_area_ratio He)
    as [Hres | (c & Hres)]; rewrite Hres.
  { intros [= <- <-]. cbn [processed_frame save_frame conf].
    rewrite orb_true_r. split; [ constructor | ].
    repeat split; auto; discriminate. }
  destruct (size _) as [width_pixels height_pixels].
  unfold pixel_to_cm, truediv.
  destruct (Qeq_bool f 0) eqn:Ef; cbn [bind].
  { intros [= <- <-]. split; [ constructor | ]. split; [ reflexivity | ].
    right. split; [ reflexivity | now apply Qeq_bool_iff ]. }
  intros [= <- <-]. cbn [processed_frame save_frame conf].
  rewrite orb_true_r. split; [ repeat constructor | ].
  repeat split; auto; try discriminate.
  intros Hf. apply Qeq_bool_iff in Hf. congruence.
Qed.

(** What the whole loop does. *)
Lemma process_detections_spec
      (frame : Mat pixel3) (thr f : Q) (detections : list detection) :
  forall (st : frame_state) (events : list event) (r : frame_state + error),
    process_detections frame thr f detections st = (events, r) ->
    Forall is_print events
    /\ match r with
       | inl st' =>
           rows (processed_frame st') = rows (processed_frame st)
           /\ cols (processed_frame st') = cols (processed_frame st)
           /\ save_frame st' = save_frame st || existsb (qualifies thr) detections
           /\ (forall d0, detections <> [] ->
                          conf st' = Some (det_conf (last detections d0)))
           /\ (existsb (qualifies thr) detections = false ->
               processed_frame st' = processed_frame st /\ events = [])
           /\ Forall (fun box =>
                        qualifies thr box = true ->
                        empty (roi_of frame (det_xyxy box)) = false
                        /\ (f == 0 ->
                            get_accurate_rotated_bbox
                              frame (det_xyxy box) default_min_area_ratio
                            = Ok (None, None)))
                     detections
       | inr e =>
           existsb (qualifies thr) detections = true
           /\ (e = Propagated (CvError "cvtColor")
               \/ e = Propagated ZeroDivisionError)
       end.
Proof.
  induction detections as [ | box rest IH ]; intros st events r;
    cbn [process_detections].
  - intros [= <- <-]. split; [ constructor | ].
    cbn [existsb]. rewrite orb_false_r.
    repeat split; auto. congruence.
  - destruct (process_detection frame thr f st box) as [ev1 r1] eqn:E1.
    apply process_detection_spec in E1 as [Hp1 H1].
    destruct r1 as [st1 | e1].
    2:{ intros [= <- <-]. split; [ exact Hp1 | ]. cbn [existsb].
        destruct H1 as [-> [[-> _] | [-> _]]]; auto. }
    destruct (process_detections frame thr f rest st1) as [ev2 r2] eqn:E2.
    pose proof E2 as E2'. apply IH in E2 as [Hp2 H2].
    intros [= <- <-]. split; [ now apply Forall_app | ].
    destruct r2 as [st2 | e2].
    2:{ cbn [existsb]. destruct H2 as [-> H2].
        now rewrite orb_true_r. }
    destruct H1 as (R1 & C1 & S1 & F1 & N1 & Q1).
    destruct H2 as (R2 & C2 & S2 & F2 & N2 & Q2).
    cbn [existsb].
    split; [ congruence | ]. split; [ congruence | ].
    split; [ rewrite S2, S1; now rewrite orb_assoc | ].
    split; [ | split ].
    + intros d0 _. destruct rest as [ | box' rest' ].
      * cbn [process_detections] in E2'. injection E2' as _ <-.
        cbn [last]. exact F1.
      * rewrite (F2 d0) by discriminate. reflexivity.
    + intros Hnone. apply orb_false_iff in Hnone as [Hb Hr].
      destruct (N1 Hb) as [P1 ->]. destruct (N2 Hr) as [P2 ->].
      split; [ congruence | reflexivity ].
    + constructor; assumption.
Qed.

End FrameLoop.

Section FrameResults.
Context {ip : Imgproc} {fit : Fitting} {cv : Canvas} {fmt : Formatting}.

(** X14: when no detection reaches the confidence threshold (in particular
    when there is no detection), [process_frame] returns the frame as it
    was, prints nothing, saves nothing and does not raise. *)
Theorem no_qualifying_detection_no_effect
        (frame : Mat pixel3) (model : Mat pixel3 -> list detection)
        (save_dir utc_timestamp : string) (thr f : Q) :
  existsb (qualifies thr) (model frame) = false ->
  process_frame frame model save_dir utc_timestamp thr f = ([], inl frame).
Proof.
  intros Hnone. unfold process_frame.
  destruct (process_detections frame thr f (model frame)
                               (mkFrameState frame false None))
    as [events r] eqn:E.
  apply process_detections_spec in E as [_ H].
  destruct r as [st | e].
  - destruct H as (_ & _ & S & _ & N & _).
    destruct (N Hnone) as [P ->]. cbn [processed_frame save_frame] in *.
    rewrite S, Hnone, P. reflexivity.
  - destruct H as [H _]. congruence.
Qed.

(** X15: when [process_frame] returns and some detection reached the
    threshold, the frame is written exactly once, after every line printed
    for an object; the image written is the frame returned, and the last
    event is the line that reports the path written. *)
Theorem frame_saved_once
        (frame out : Mat pixel3) (model : Mat pixel3 -> list detection)
        (save_dir utc_timestamp : string) (thr f : Q) (events : list event) :
  process_frame frame model save_dir utc_timestamp thr f = (events, inl out) ->
  existsb (qualifies thr) (model frame) = true ->
  exists prints path,
    events = prints ++ [Imwrite path out;
                        Print ("Saved frame to: " ++ path)%string]
    /\ Forall is_print prints.
Proof.
  unfold process_frame. intros Hrun Hsome.
  destruct (process_detections frame thr f (model frame)
                               (mkFrameState frame false None))
    as [prints r] eqn:E.
  apply process_detections_spec in E as [Hp H].
  destruct r as [st | e]; [ | discriminate Hrun ].
  destruct H as (_ & _ & S & _ & _ & _). cbn [save_frame] in S.
  rewrite S, Hsome in Hrun. cbn [orb] in Hrun.
  destruct (conf st) as [c | ]; [ | discriminate Hrun ].
  injection Hrun as <- <-.
  do 2 eexists. split; [ reflexivity | exact Hp ].
Qed.

(** X16: the confidence in the name of the saved file is that of the last
    detection of the list, whether or not that detection reached the
    threshold: the path written is
    [save_dir/detection_<timestamp>_conf_<last conf * 100>.jpg]. *)
Theorem saved_name_uses_last_confidence
        (frame out : Mat pixel3) (model : Mat pixel3 -> list detection)
        (save_dir utc_timestamp : string) (thr f : Q) (events : list event)
        (d0 : detection) :
  process_frame frame model save_dir utc_timestamp thr f = (events, inl out) ->
  existsb (qualifies thr) (model frame) = true ->
  let last_conf := det_conf (last (model frame) d0) in
  In (Imwrite (path_join save_dir
                 ("detection_" ++ utc_timestamp ++ "_conf_"
                  ++ fixed1 (last_conf * 100) ++ ".jpg")%string)
              out)
     events.
Proof.
  intros Hrun Hsome last_conf. subst last_conf. unfold process_frame in Hrun.
  destruct (process_detections frame thr f (model frame)
                               (mkFrameState frame false None))
    as [prints r] eqn:E.
  apply process_detections_spec in E as [Hp H].
  destruct r as [st | e]; [ | discriminate Hrun ].
  destruct H as (_ & _ & S & F & _ & _). cbn [save_frame] in S.
  rewrite S, Hsome in Hrun. cbn [orb] in Hrun.
  rewrite (F d0) in Hrun.
  2:{ intros E. rewrite E in Hsome. discriminate Hsome. }
  injection Hrun as <- <-.
  apply in_or_app. right. now left.
Qed.

(** X17: the only exceptions [process_frame] raises are the [cv2.error] of
    an empty crop and the [ZeroDivisionError] of a zero focal length: the
    variable [conf] is bound whenever it is read and [rotated_rect] is never
    [None] when it is unpacked. When it raises, nothing has been written. *)
Theorem process_frame_exceptions
        (frame : Mat pixel3) (model : Mat pixel3 -> list detection)
        (save_dir utc_timestamp : string) (thr f : Q)
        (events : list event) (e : error) :
  process_frame frame model save_dir utc_timestamp thr f = (events, inr e) ->
  (e = Propagated (CvError "cvtColor") \/ e = Propagated ZeroDivisionError)
  /\ Forall is_print events.
Proof.
  unfold process_frame. intros Hrun.
  destruct (process_detections frame thr f (model frame)
                               (mkFrameState frame false None))
    as [prints r] eqn:E.
  apply process_detections_spec in E as [Hp H].
  destruct r as [st | e'].
  - destruct H as (_ & _ & S & F & _ & _). cbn [save_frame] in S.
    destruct (save_frame st) eqn:Es; [ | discriminate Hrun ].
    destruct (model frame) as [ | d ds ] eqn:Em; [ discriminate S | ].
    rewrite (F d) in Hrun by discriminate. discriminate Hrun.
  - injection Hrun as <- <-. destruct H as [_ H]. now split.
Qed.

(** X18: one failing detection aborts the whole frame. If a detection that
    reaches the threshold has an empty crop, or if the focal length is zero
    and a shape is found for such a detection, [process_frame] raises: no
    frame is returned and nothing is written, whatever the other detections
    are. *)
Theorem failing_detection_aborts_frame
        (frame : Mat pixel3) (model : Mat pixel3 -> list detection)
        (save_dir utc_timestamp : string) (thr f : Q) (box : detection) :
  In box (model frame) ->
  qualifies thr box = true ->
  empty (roi_of frame (det_xyxy box)) = true
  \/ (f == 0
      /\ exists rect pts,
           get_accurate_rotated_bbox frame (det_xyxy box) default_min_area_ratio
           = Ok (Some rect, Some pts)) ->
  exists events e,
    process_frame frame model save_dir utc_timestamp thr f = (events, inr e)
    /\ Forall is_print events.
Proof.
  intros Hin Hq Hfail. unfold process_frame.
  destruct (process_detections frame thr f (model frame)
                               (mkFrameState frame false None))
    as [prints r] eqn:E.
  apply process_detections_spec in E as [Hp H].
  destruct r as [st | e]; [ exfalso | eauto ].
  destruct H as (_ & _ & _ & _ & _ & Hall).
  rewrite Forall_forall in Hall.
  destruct (Hall box Hin Hq) as [Hne Hzero].
  destruct Hfail as [He | (Hf & rect & pts & Hres)]; [ congruence | ].
  rewrite (Hzero Hf) in Hres. discriminate Hres.
Qed.

(** X19: a frame returned by [process_frame] has the height and the width
    of the frame it was given. *)
Theorem process_frame_keeps_shape
        (frame out : Mat pixel3) (model : Mat pixel3 -> list detection)
        (save_dir utc_timestamp : string) (thr f : Q) (events : list event) :
  process_frame frame model save_dir utc_timestamp thr f = (events, inl out) ->
  rows out = rows frame /\ cols out = cols frame.
Proof.
  unfold process_frame. intros Hrun.
  destruct (process_detections frame thr f (model frame)
                               (mkFrameState frame false None))
    as [prints r] eqn:E.
  apply process_detections_spec in E as [_ H].
  destruct r as [st | e]; [ | discriminate Hrun ].
  destruct H as (R & C & _). cbn [processed_frame] in *.
  destruct (save_frame st); [ destruct (conf st); [ | discriminate Hrun ] | ];
    injection Hrun as _ <-; now split.
Qed.

End FrameResults.

Section BelowThreshold.
Context {ip : Imgproc} {fit : Fitting} {cv : Canvas} {fmt : Formatting}.

(** The loop body reads [processed_frame] and [save_frame] only. *)
Lemma process_detection_same_frame
      (frame : Mat pixel3) (thr f : Q) (st1 st2 : frame_state) (box : detection) :
  same_frame st1 st2 ->
  same_outcome (process_detection frame thr f st1 box)
               (process_detection frame thr f st2 box).
Proof.
  intros [Hp Hs]. unfold process_detection. rewrite Hp, Hs.
  unfold same_outcome, same_frame.
  destruct (ge (det_conf box) thr); [ | cbn; auto ].
  destruct (get_accurate_rotated_bbox _ _ _) as [[[rect | ] [pts | ]] | e];
    try (cbn; now auto).
  destruct (size rect) as [w h].
  destruct (pixel_to_cm _ _ _ _) as [[wc hc] | e]; cbn; auto.
Qed.

Lemma process_detection_below
      (frame : Mat pixel3) (thr f : Q) (st : frame_state) (box : detection) :
  qualifies thr box = false ->
  process_detection frame thr f st box
  = ([], inl (mkFrameState (processed_frame st) (save_frame st)
                           (Some (det_conf box)))).
Proof.
  unfold qualifies, process_detection. now intros ->.
Qed.

Lemma process_detections_filter
      (frame : Mat pixel3) (thr f : Q) (detections : list detection) :
  forall st1 st2,
    same_frame st1 st2 ->
    same_outcome
      (process_detections frame thr f detections st1)
      (process_detections frame thr f (filter (qualifies thr) detections) st2).
Proof.
  induction detections as [ | box rest IH ]; intros st1 st2 Hsame;
    cbn [process_detections filter].
  - split; [ reflexivity | exact Hsame ].
  - destruct (qualifies thr box) eqn:Eq.
    + cbn [process_detections].
      pose proof (process_detection_same_frame frame thr f box Hsame) as Hstep.
      unfold same_outcome in Hstep.
      destruct (process_detection frame thr f st1 box) as [ev1 [st1' | e1]];
        destruct (process_detection frame thr f st2 box) as [ev2 [st2' | e2]];
        cbn [fst snd] in Hstep; destruct Hstep as [-> Hstep];
        try contradiction.
      * specialize (IH st1' st2' Hstep). unfold same_outcome in IH.
        destruct (process_detections frame thr f rest st1') as [ev1' r1];
          destruct (process_detections frame thr f _ st2') as [ev2' r2].
        cbn [fst snd] in IH. destruct IH as [-> IH].
        split; [ reflexivity | exact IH ].
      * split; [ reflexivity | exact Hstep ].
    + rewrite (@process_detection_below frame thr f st1 box Eq).
      specialize (IH (mkFrameState (processed_frame st1) (save_frame st1)
                                   (Some (det_conf box))) st2 Hsame).
      destruct (process_detections frame thr f rest _) as [ev1' r1].
      exact IH.
Qed.

(** X20: detections below the threshold change nothing but the name of the
    saved file. Run on all detections and run on those that reach the
    threshold only, [process_frame] prints the same lines for the objects
    and returns the same frame or raises the same exception; if the frame is
    saved, the same image is written, under a path that may differ. *)
Theorem below_threshold_detections_ignored
        (frame : Mat pixel3) (model : Mat pixel3 -> list detection)
        (save_dir utc_timestamp : string) (thr f : Q) :
  let kept := fun fr => filter (qualifies thr) (model fr) in
  exists prints tail tail' r,
    process_frame frame model save_dir utc_timestamp thr f = (prints ++ tail, r)
    /\ process_frame frame kept save_dir utc_timestamp thr f = (prints ++ tail', r)
    /\ Forall is_print prints
    /\ ((tail = [] /\ tail' = [])
        \/ exists path path' out,
             r = inl out
             /\ tail = [Imwrite path out;
                        Print ("Saved frame to: " ++ path)%string]
             /\ tail' = [Imwrite path' out;
                         Print ("Saved frame to: " ++ path')%string]).
Proof.
  intros kept. subst kept. unfold process_frame.
  pose proof (@process_detections_filter frame thr f (model frame)
                (mkFrameState frame false None) (mkFrameState frame false None)
                (conj eq_refl eq_refl)) as Hrel.
  destruct (process_detections frame thr f (model frame) _)
    as [ev1 r1] eqn:E1.
  destruct (process_detections frame thr f (filter _ _) _)
    as [ev2 r2] eqn:E2.
  unfold same_outcome in Hrel. cbn [fst snd] in Hrel.
  destruct Hrel as [-> Hrel].
  apply process_detections_spec in E1 as [Hp H1].
  apply process_detections_spec in E2 as [_ H2].
  destruct r1 as [st1 | e1], r2 as [st2 | e2]; try contradiction.
  - destruct Hrel as [Hf Hs].
    destruct H1 as (_ & _ & S1 & F1 & _ & _).
    destruct H2 as (_ & _ & S2 & F2 & _ & _).
    cbn [save_frame] in S1, S2.
    rewrite <- Hs, <- Hf. destruct (save_frame st1) eqn:Es.
    + destruct (model frame) as [ | d ds ] eqn:Em; [ discriminate S1 | ].
      rewrite (F1 d) by discriminate.
      destruct (filter (qualifies thr) (d :: ds)) as [ | k ks ] eqn:Ek;
        [ rewrite <- Hs in S2; discriminate S2 | ].
      rewrite (F2 k) by discriminate.
      do 4 eexists. split; [ reflexivity | ]. split; [ reflexivity | ].
      split; [ exact Hp | ]. right. do 3 eexists.
      split; [ reflexivity | ]. split; reflexivity.
    + exists ev2, [], [], (inl (processed_frame st1)).
      rewrite !app_nil_r.
      split; [ reflexivity | ]. split; [ reflexivity | ].
      split; [ exact Hp | now left ].
  - subst e2. exists ev2, [], [], (inr e1). rewrite !app_nil_r.
    split; [ reflexivity | ]. split; [ reflexivity | ].
    split; [ exact Hp | now left ].
Qed.

End BelowThreshold.

(** *** The further properties at concrete frames, on the sample instances *)

Section MoreExamples.
#[local] Existing Instance Sample.imgproc.
#[local] Existing Instance Sample.fitting.
#[local] Existing Instance SampleHost.canvas.
#[local] Existing Instance SampleHost.formatting.

Lemma get_accurate_rotated_bbox_returns_iff_nonempty_witness :
  empty (roi_of Sample.block_frame (2, 1, 10, 9)) = false
  /\ exists r,
       get_accurate_rotated_bbox Sample.block_frame (2, 1, 10, 9) (1 # 10) = Ok r.
Proof.
  split; [ reflexivity | ].
  apply (proj1 (@get_accurate_rotated_bbox_returns_iff_nonempty
                  Sample.imgproc Sample.fitting
                  Sample.block_frame (2, 1, 10, 9) (1 # 10))).
  reflexivity.
Defined.

Lemma result_is_all_or_nothing_witness :
  let rect := mkRotatedRect (1, 1) (2, 2) 0 in
  let box := [(0, 2); (0, 0); (2, 0); (2, 2)]%Z in
  get_accurate_rotated_bbox SampleHost.tiny_frame (0, 0, 3, 3) (1 # 10)
  = Ok (Some rect, Some box)
  /\ ((Some rect = None /\ Some box = None)
      \/ exists c rect' box',
           Some rect = Some rect' /\ Some box = Some box'
           /\ List.length box' = List.length (boxPoints (fst (fit_shape c)))
           /\ size rect' = size (fst (fit_shape c))
           /\ angle rect' = angle (fst (fit_shape c))).
Proof.
  cbv zeta.
  assert (get_accurate_rotated_bbox SampleHost.tiny_frame (0, 0, 3, 3) (1 # 10)
          = Ok (Some (mkRotatedRect (1, 1) (2, 2) 0),
                Some [(0, 2); (0, 0); (2, 0); (2, 2)]%Z)) as E
      by (vm_compute; reflexivity).
  split; [ exact E | ].
  exact (@result_is_all_or_nothing Sample.imgproc Sample.fitting
           SampleHost.tiny_frame (0, 0, 3, 3) (1 # 10) _ _ E).
Defined.

Lemma fitted_contour_is_first_largest_witness :
  exists before c after,
    before ++ c :: after = [[(0, 0); (0, 2); (2, 2); (2, 0)]%Z]
    /\ get_accurate_rotated_bbox SampleHost.tiny_frame (0, 0, 3, 3) (1 # 10)
       = Ok (Some (fst (to_frame 0 0 (fit_shape c))),
             Some (snd (to_frame 0 0 (fit_shape c)))).
Proof.
  edestruct (@fitted_contour_is_first_largest Sample.imgproc Sample.fitting
               SampleHost.tiny_frame (0, 0, 3, 3) (1 # 10))
    as (before & c & after & Heq & _ & _ & Hres).
  - reflexivity.
  - vm_compute. discriminate.
  - exists before, c, after. split; [ | exact Hres ].
    etransitivity; [ symmetry; exact Heq | ]. vm_compute. reflexivity.
Defined.

Lemma valid_contours_keeps_order_witness :
  let c := [(2, 2); (2, 5); (5, 5); (5, 2)]%Z in
  contourArea c == inject_Z (Z.of_nat 90) * (1 # 10)
  /\ (In c (valid_contours 90 (1 # 10) [c]) -> False).
Proof.
  cbv zeta.
  assert (contourArea [(2, 2); (2, 5); (5, 5); (5, 2)]%Z
          == inject_Z (Z.of_nat 90) * (1 # 10)) as Harea by reflexivity.
  split; [ exact Harea | ].
  apply (proj1 (proj2 (proj2 (@valid_contours_keeps_order Sample.imgproc
                                 90 (1 # 10)
                                 [[(2, 2); (2, 5); (5, 5); (5, 2)]%Z] [])))).
  - now left.
  - exact Harea.
Defined.

Lemma crop_inside_frame_witness :
  rows (roi_of Sample.block_frame (2, 1, 10, 9)) = 8%nat
  /\ cols (roi_of Sample.block_frame (2, 1, 10, 9)) = 8%nat
  /\ px (roi_of Sample.block_frame (2, 1, 10, 9)) 2 2
     = px Sample.block_frame 3 4.
Proof.
  destruct (@crop_inside_frame Sample.block_frame 2 1 10 9)
    as (_ & Hr & Hc & Hpx); try (vm_compute; split; discriminate).
  - vm_compute. discriminate.
  - vm_compute. discriminate.
  - split; [ | split ].
    + apply Nat2Z.inj. rewrite Hr. reflexivity.
    + apply Nat2Z.inj. rewrite Hc. reflexivity.
    + rewrite Hpx. reflexivity.
Defined.

Lemma crop_is_clipped_witness :
  cols (roi_of Sample.block_frame (7, 1, 25, 9)) = 3%nat.
Proof.
  apply Nat2Z.inj.
  rewrite (proj1 (proj2 (proj2 (@crop_is_clipped Sample.block_frame 7 1 25 9)))).
  - reflexivity.
  - vm_compute. split; discriminate.
  - vm_compute. discriminate.
Defined.

Lemma negative_offset_wraps_witness :
  px (roi_of Sample.block_frame (-3, 1, 10, 9)) 2 0 = px Sample.block_frame 3 7
  /\ fst (offset_of (-3, 1, 10, 9)) = (-3)%Z.
Proof.
  destruct (@negative_offset_wraps Sample.block_frame (-3) 1 10 9)
    as (Hpx & Hoff & _).
  - vm_compute. split; [ discriminate | reflexivity ].
  - split; [ rewrite Hpx; reflexivity | exact Hoff ].
Defined.

Lemma box_in_frame_never_raises_witness :
  exists r,
    get_accurate_rotated_bbox Sample.block_frame (2, 1, 25, 9) (1 # 10) = Ok r.
Proof.
  apply (@box_in_frame_never_raises Sample.imgproc Sample.fitting
           Sample.block_frame 2 1 25 9 (1 # 10));
    vm_compute; first [ split; [ discriminate | reflexivity ] | reflexivity ].
Defined.

Lemma pixel_to_cm_linear_witness :
  exists wc' hc',
    pixel_to_cm (2 * 1000) (3 * 500) 100 1000 = Ok (wc', hc')
    /\ wc' == 2 * (1000 * 100 / 1000) /\ hc' == 3 * (500 * 100 / 1000).
Proof.
  apply (proj1 (@pixel_to_cm_linear 2 3 1000 500 100 1000
                  (1000 * 100 / 1000) (500 * 100 / 1000) eq_refl)).
Defined.


Lemma rescaleFrame_never_enlarges_witness :
  exists out,
    rescaleFrame Sample.block_frame (3 # 4) = Ok out
    /\ (rows out <= 10)%nat /\ (cols out <= 10)%nat.
Proof.
  eexists. split; [ reflexivity | ].
  apply (@rescaleFrame_never_enlarges SampleHost.canvas
           Sample.block_frame _ (3 # 4)).
  - vm_compute. discriminate.
  - vm_compute. discriminate.
  - reflexivity.
Defined.

Lemma drawn_center_inside_box_witness :
  let box := [(4, 6); (4, 3); (7, 3); (7, 6)]%Z in
  astype_int (mean_axis0 box) = (5, 4)%Z
  /\ (4 <= fst (astype_int (mean_axis0 box)) <= 7)%Z
  /\ (3 <= snd (astype_int (mean_axis0 box)) <= 6)%Z.
Proof.
  cbv zeta. split; [ reflexivity | ].
  apply (@drawn_center_inside_box SampleHost.canvas Sample.block_frame
           [(4, 6); (4, 3); (7, 3); (7, 6)]%Z (0, 255, 0)%Z 2 4 7 3 6).
  - discriminate.
  - repeat first [ apply Forall_nil | apply Forall_cons; [ cbn; lia | ] ].
Defined.

Lemma no_qualifying_detection_no_effect_witness :
  process_frame SampleHost.tiny_frame (fun _ => [SampleHost.weak])
                "out" "20240101_000000_UTC" (4 # 10) 1000
  = ([], inl SampleHost.tiny_frame).
Proof.
  apply (@no_qualifying_detection_no_effect
           Sample.imgproc Sample.fitting SampleHost.canvas SampleHost.formatting).
  reflexivity.
Defined.

Lemma frame_saved_once_witness :
  exists prints path out,
    process_frame SampleHost.tiny_frame
                  (fun _ => [SampleHost.strong; SampleHost.weak])
                  "out" "20240101_000000_UTC" (4 # 10) 1000
    = (prints ++ [Imwrite path out; Print ("Saved frame to: " ++ path)%string],
       inl out)
    /\ Forall is_print prints.
Proof.
  destruct (process_frame SampleHost.tiny_frame
                          (fun _ => [SampleHost.strong; SampleHost.weak])
                          "out" "20240101_000000_UTC" (4 # 10) 1000)
    as [events [out | e]] eqn:E.
  - destruct (@frame_saved_once
                Sample.imgproc Sample.fitting SampleHost.canvas
                SampleHost.formatting _ _ _ _ _ _ _ _ E eq_refl)
      as (prints & path & -> & Hp).
    exists prints, path, out. split; [ reflexivity | exact Hp ].
  - exfalso. vm_compute in E. discriminate E.
Defined.

Lemma saved_name_uses_last_confidence_witness :
  exists events out,
    process_frame SampleHost.tiny_frame
                  (fun _ => [SampleHost.strong; SampleHost.weak])
                  "out" "20240101_000000_UTC" (4 # 10) 1000
    = (events, inl out)
    /\ qualifies (4 # 10) SampleHost.weak = false
    /\ In (Imwrite "out/detection_20240101_000000_UTC_conf_10.0.jpg" out) events.
Proof.
  destruct (process_frame SampleHost.tiny_frame
                          (fun _ => [SampleHost.strong; SampleHost.weak])
                          "out" "20240101_000000_UTC" (4 # 10) 1000)
    as [events [out | e]] eqn:E.
  - exists events, out. split; [ reflexivity | ]. split; [ reflexivity | ].
    exact (@saved_name_uses_last_confidence
             Sample.imgproc Sample.fitting SampleHost.canvas
             SampleHost.formatting _ _ _ _ _ _ _ _ SampleHost.strong E eq_refl).
  - exfalso. vm_compute in E. discriminate E.
Defined.

Lemma process_frame_exceptions_witness :
  exists events e,
    process_frame SampleHost.tiny_frame
                  (fun _ => [SampleHost.strong; SampleHost.sliver])
                  "out" "20240101_000000_UTC" (4 # 10) 1000
    = (events, inr e)
    /\ (e = Propagated (CvError "cvtColor") \/ e = Propagated ZeroDivisionError)
    /\ Forall is_print events.
Proof.
  destruct (process_frame SampleHost.tiny_frame
                          (fun _ => [SampleHost.strong; SampleHost.sliver])
                          "out" "20240101_000000_UTC" (4 # 10) 1000)
    as [events [out | e]] eqn:E.
  - exfalso. vm_compute in E. discriminate E.
  - exists events, e. split; [ reflexivity | ].
    exact (@process_frame_exceptions
             Sample.imgproc Sample.fitting SampleHost.canvas
             SampleHost.formatting _ _ _ _ _ _ _ _ E).
Defined.

Lemma failing_detection_aborts_frame_witness :
  exists events e,
    process_frame SampleHost.tiny_frame
                  (fun _ => [SampleHost.strong; SampleHost.sliver])
                  "out" "20240101_000000_UTC" (4 # 10) 1000
    = (events, inr e)
    /\ Forall is_print events.
Proof.
  apply (@failing_detection_aborts_frame
           Sample.imgproc Sample.fitting SampleHost.canvas SampleHost.formatting
           SampleHost.tiny_frame
           (fun _ => [SampleHost.strong; SampleHost.sliver])
           "out" "20240101_000000_UTC" (4 # 10) 1000 SampleHost.sliver).
  - right. now left.
  - reflexivity.
  - left. reflexivity.
Defined.

Lemma process_frame_keeps_shape_witness :
  exists events out,
    process_frame SampleHost.tiny_frame
                  (fun _ => [SampleHost.strong; SampleHost.weak])
                  "out" "20240101_000000_UTC" (4 # 10) 1000
    = (events, inl out)
    /\ rows out = 3%nat /\ cols out = 3%nat.
Proof.
  destruct (process_frame SampleHost.tiny_frame
                          (fun _ => [SampleHost.strong; SampleHost.weak])
                          "out" "20240101_000000_UTC" (4 # 10) 1000)
    as [events [out | e]] eqn:E.
  - exists events, out. split; [ reflexivity | ].
    exact (@process_frame_keeps_shape
             Sample.imgproc Sample.fitting SampleHost.canvas
             SampleHost.formatting _ _ _ _ _ _ _ _ E).
  - exfalso. vm_compute in E. discriminate E.
Defined.

End MoreExamples.
